(** * Reservation lifecycle and status reconciliation of the rent-a-car backend

    A shallow embedding of [src/routes/reservationRoutes.ts] (the handlers
    behind [POST /], [PATCH /:id/approve] and [PATCH /:id/reject]) and of
    the hourly job of [src/cronJobs.ts], over a model of the three mongoose
    collections they touch: Car, Reservation and Statistics.

    The handlers are asynchronous functions made of store calls; a store
    call may reject, and what was written before the rejection stays
    written.  They are therefore modelled in a state-and-exception monad
    whose state survives an exception. *)

From Stdlib Require Import String ZArith List Bool Arith Lia.
Import ListNotations.
Local Open Scope string_scope.
Local Open Scope list_scope.
Local Open Scope nat_scope.

(** * Data model *)

(** A mongoose [ObjectId]; documents are created with increasing ones. *)
Definition ObjectId := nat.

(** A JavaScript [Date]: milliseconds since the epoch, UTC.  (A valid
    [Date] stays within 8.64e15 ms of the epoch; nothing below depends on
    the bound.) *)
Definition Date := Z.

(** [models/Car.ts] *)
Module ICar.
Inductive Status := available | reserved | maintenance | rented.
Inductive FuelType := electric | hybrid | diesel | petrol.
Inductive Transmission := automatic | manual.
Inductive VehicleSize := small | medium | large.

Record t := mk {
  _id : ObjectId;
  make : string;
  carModel : string;
  year : string;
  status : Status;
  dailyRate : Z;
  imageUrl : string;
  description : string;
  fuelType : FuelType;
  transmission : Transmission;
  mileage : string;
  vehicleSize : VehicleSize
}.

(** [car.status = s] *)
Definition set_status (s : Status) (c : t) : t :=
  mk (_id c) (make c) (carModel c) (year c) s (dailyRate c) (imageUrl c)
     (description c) (fuelType c) (transmission c) (mileage c) (vehicleSize c).

Definition status_eqb (a b : Status) : bool :=
  match a, b with
  | available, available | reserved, reserved
  | maintenance, maintenance | rented, rented => true
  | _, _ => false
  end.
End ICar.

(** [models/Reservation.ts] *)
Module IReservation.
Inductive Status := pending | confirmed | cancelled | completed.

Record t := mk {
  _id : ObjectId;
  carId : ObjectId;
  userId : ObjectId;
  startDate : Date;
  endDate : Date;
  status : Status;
  totalCost : Z
}.

(** [reservation.status = s] *)
Definition set_status (s : Status) (r : t) : t :=
  mk (_id r) (carId r) (userId r) (startDate r) (endDate r) s (totalCost r).

Definition status_eqb (a b : Status) : bool :=
  match a, b with
  | pending, pending | confirmed, confirmed
  | cancelled, cancelled | completed, completed => true
  | _, _ => false
  end.
End IReservation.

(** [models/Statistics.ts].  The schema stores [reservationId] as a String:
    mongoose casts the reservation's ObjectId to its hexadecimal form both
    when the record is saved and when a query filters on the field, and the
    cast is injective, so the field is modelled by the ObjectId itself. *)
Module IStatistics.
Inductive PaymentStatus := pending | confirmed | cancelled.

Record t := mk {
  _id : ObjectId;
  date : Date;
  revenue : Z;
  paymentStatus : PaymentStatus;
  reservationId : ObjectId
}.

(** [statistics.paymentStatus = s] *)
Definition set_paymentStatus (s : PaymentStatus) (x : t) : t :=
  mk (_id x) (date x) (revenue x) s (reservationId x).
End IStatistics.

(** * The store and its environment *)

Inductive Collection := Cars | Reservations | Statisticss.

(** What a store call changed: the journal of writes. *)
Inductive Write :=
| Inserted (c : Collection) (id : ObjectId)
| Updated (c : Collection) (id : ObjectId)
| Deleted (c : Collection) (id : ObjectId).

(** An exception, with the text of its [message]. *)
Inductive Exn :=
| StoreError (message : string)
| DocumentNotFoundError.

Definition message (e : Exn) : string :=
  match e with
  | StoreError m => m
  | DocumentNotFoundError => "No document found for query"
  end.

(** The three collections, in their natural (insertion) order; the counter
    the next ObjectId is drawn from; the schedule of store failures (the
    head says whether the next store call rejects, and with which message;
    an empty schedule means that no further call fails); the journal of
    writes; what was printed with [console.error]. *)
Record World := mkWorld {
  cars : list ICar.t;
  reservations : list IReservation.t;
  statistics : list IStatistics.t;
  nextId : ObjectId;
  faults : list (option string);
  writes : list Write;
  console : list (string * Exn)
}.

Definition with_cars (cs : list ICar.t) (w : World) : World :=
  mkWorld cs (reservations w) (statistics w) (nextId w) (faults w)
          (writes w) (console w).
Definition with_reservations (rs : list IReservation.t) (w : World) : World :=
  mkWorld (cars w) rs (statistics w) (nextId w) (faults w)
          (writes w) (console w).
Definition with_statistics (ss : list IStatistics.t) (w : World) : World :=
  mkWorld (cars w) (reservations w) ss (nextId w) (faults w)
          (writes w) (console w).
Definition with_nextId (n : ObjectId) (w : World) : World :=
  mkWorld (cars w) (reservations w) (statistics w) n (faults w)
          (writes w) (console w).
Definition with_faults (fs : list (option string)) (w : World) : World :=
  mkWorld (cars w) (reservations w) (statistics w) (nextId w) fs
          (writes w) (console w).
Definition journal (x : Write) (w : World) : World :=
  mkWorld (cars w) (reservations w) (statistics w) (nextId w) (faults w)
          (writes w ++ [x]) (console w).
Definition console_error (label : string) (e : Exn) (w : World) : World :=
  mkWorld (cars w) (reservations w) (statistics w) (nextId w) (faults w)
          (writes w) (console w ++ [(label, e)]).

(** * Asynchronous computations *)

Inductive Outcome (A : Type) :=
| Returned (a : A)
| Thrown (e : Exn).
Arguments Returned {A} a.
Arguments Thrown {A} e.

(** A computation runs from a world to an outcome and the world it left. *)
Definition Async (A : Type) := World -> Outcome A * World.

Definition ret {A} (a : A) : Async A := fun w => (Returned a, w).

Definition bind {A B} (m : Async A) (k : A -> Async B) : Async B :=
  fun w =>
    match m w with
    | (Returned a, w') => k a w'
    | (Thrown e, w') => (Thrown e, w')
    end.

Declare Scope async_scope.
Delimit Scope async_scope with async.
Notation "x <- m ;; k" := (bind m (fun x => k))
  (at level 61, m at next level, right associativity) : async_scope.
Notation "m ;; k" := (bind m (fun _ => k))
  (at level 61, right associativity) : async_scope.
Local Open Scope async_scope.

(** [await] of a store call: the head of the failure schedule decides
    whether the call rejects before it touches the store. *)
Definition await {A} (op : World -> Outcome A * World) : Async A :=
  fun w =>
    match faults w with
    | Some m :: fs => (Thrown (StoreError m), with_faults fs w)
    | None :: fs => op (with_faults fs w)
    | [] => op w
    end.

(** [for (const x of xs) { await body(x) }] *)
Fixpoint forEach {A} (xs : list A) (body : A -> Async unit) : Async unit :=
  match xs with
  | [] => ret tt
  | x :: xs' => body x ;; forEach xs' body
  end.

(** [new Model({...})]: mongoose draws the [_id] when the document is
    constructed, without a store call. *)
Definition newObjectId : Async ObjectId :=
  fun w => (Returned (nextId w), with_nextId (S (nextId w)) w).

(** * Collections *)

Section Collection.
Context {D : Type} (key : D -> ObjectId).

(** The filter [{ _id: i }]. *)
Definition byId (i : ObjectId) (d : D) : bool := key d =? i.

(** [updateOne({ _id: d._id }, d)]: the first document with the key of
    [d] becomes [d]. *)
Fixpoint updateOne (d : D) (l : list D) : list D :=
  match l with
  | [] => []
  | x :: xs => if byId (key d) x then d :: xs else x :: updateOne d xs
  end.

(** [deleteOne(q)]: the first document that matches [q] goes. *)
Fixpoint deleteOne (q : D -> bool) (l : list D) : list D :=
  match l with
  | [] => []
  | x :: xs => if q x then xs else x :: deleteOne q xs
  end.

(** The [deletedCount] of that [deleteOne]. *)
Definition deletedCount (q : D -> bool) (l : list D) : nat :=
  if existsb q l then 1 else 0.

(** The [_id] of the document [deleteOne(q)] removes (for the journal). *)
Definition deletedId (q : D -> bool) (l : list D) : option ObjectId :=
  option_map key (find q l).
End Collection.

(** The model operations.  [save] of a loaded document is an update by
    [_id] (one store call, also when no path was modified); mongoose
    rejects it with [DocumentNotFoundError] when the store holds no
    document with that [_id].  Mongoose sends the modified paths only;
    the update below stores the document held in memory, which is the same
    whenever that document differs from the stored one in the modified
    path alone, as it does in every run of the handlers below on a store
    with one document per [_id].  [save] of a new document is an insert.
    The [createdAt]/[updatedAt] stamps of [timestamps: true] are not
    modelled. *)
Module Car.
Definition findById (i : ObjectId) : Async (option ICar.t) :=
  await (fun w => (Returned (find (byId ICar._id i) (cars w)), w)).

Definition save (c : ICar.t) : Async unit :=
  await (fun w =>
    if existsb (byId ICar._id (ICar._id c)) (cars w)
    then (Returned tt,
          journal (Updated Cars (ICar._id c))
                  (with_cars (updateOne ICar._id c (cars w)) w))
    else (Thrown DocumentNotFoundError, w)).
End Car.

Module Reservation.
Definition find (q : IReservation.t -> bool) : Async (list IReservation.t) :=
  await (fun w => (Returned (filter q (reservations w)), w)).

Definition findById (i : ObjectId) : Async (option IReservation.t) :=
  await (fun w =>
    (Returned (List.find (byId IReservation._id i) (reservations w)), w)).

Definition insert (r : IReservation.t) : Async unit :=
  await (fun w =>
    (Returned tt,
     journal (Inserted Reservations (IReservation._id r))
             (with_reservations (reservations w ++ [r]) w))).

Definition save (r : IReservation.t) : Async unit :=
  await (fun w =>
    if existsb (byId IReservation._id (IReservation._id r)) (reservations w)
    then (Returned tt,
          journal (Updated Reservations (IReservation._id r))
                  (with_reservations
                     (updateOne IReservation._id r (reservations w)) w))
    else (Thrown DocumentNotFoundError, w)).

(** Returns the [deletedCount]. *)
Definition deleteOne (q : IReservation.t -> bool) : Async nat :=
  await (fun w =>
    (Returned (deletedCount q (reservations w)),
     match deletedId IReservation._id q (reservations w) with
     | Some i =>
         journal (Deleted Reservations i)
                 (with_reservations (deleteOne q (reservations w)) w)
     | None => w
     end)).
End Reservation.

Module Statistics.
Definition findOne (q : IStatistics.t -> bool) : Async (option IStatistics.t) :=
  await (fun w => (Returned (find q (statistics w)), w)).

Definition insert (s : IStatistics.t) : Async unit :=
  await (fun w =>
    (Returned tt,
     journal (Inserted Statisticss (IStatistics._id s))
             (with_statistics (statistics w ++ [s]) w))).

Definition save (s : IStatistics.t) : Async unit :=
  await (fun w =>
    if existsb (byId IStatistics._id (IStatistics._id s)) (statistics w)
    then (Returned tt,
          journal (Updated Statisticss (IStatistics._id s))
                  (with_statistics
                     (updateOne IStatistics._id s (statistics w)) w))
    else (Thrown DocumentNotFoundError, w)).

(** Returns the [deletedCount]. *)
Definition deleteOne (q : IStatistics.t -> bool) : Async nat :=
  await (fun w =>
    (Returned (deletedCount q (statistics w)),
     match deletedId IStatistics._id q (statistics w) with
     | Some i =>
         journal (Deleted Statisticss i)
                 (with_statistics (deleteOne q (statistics w)) w)
     | None => w
     end)).
End Statistics.

(** * HTTP responses *)

(** The JSON body: [{ error }] or [{ message, reservation }]. *)
Inductive Body :=
| JsonError (error : string)
| JsonReservation (msg : string) (reservation : IReservation.t).

(** [res.status(code).json(body)] *)
Record Response := respond { code : nat; body : Body }.

(** A route handler: [try { ... } catch (err) { ... }] around a body that
    ends in a response; the handler itself never throws. *)
Definition handler (try : Async Response) (catch : Exn -> Response)
  : World -> Response * World :=
  fun w =>
    match try w with
    | (Returned r, w') => (r, w')
    | (Thrown e, w') => (catch e, w')
    end.

(** * Dates *)

Definition msPerDay : Z := 86400000.

(** [new Date(startDate).toISOString().split('T')[0]]: the text
    YYYY-MM-DD of the UTC day of the instant, represented by the number of
    that day (days since the epoch). *)
Definition toISODate (d : Date) : Z := (d / msPerDay)%Z.

(** The cast of the text YYYY-MM-DD to the schema's [Date]: midnight UTC
    of that day. *)
Definition castDate (day : Z) : Date := (day * msPerDay)%Z.

(** * [routes/reservationRoutes.ts]

    The [authenticate] and [isAdmin] middlewares run before the handlers;
    what follows is the handlers themselves. *)

(** [router.post('/')], on a body whose five fields are present and
    well-typed (shape validation belongs to the HTTP layer). *)
Definition post_reservation
    (userId carId : ObjectId) (startDate endDate : Date) (totalCost : Z)
  : World -> Response * World :=
  handler
    (car <- Car.findById carId ;;
     match car with
     | None => ret (respond 404 (JsonError "Car not found!"))
     | Some _ =>
         rid <- newObjectId ;;
         let newReservation :=
           IReservation.mk rid carId userId startDate endDate
                           IReservation.pending totalCost in
         Reservation.insert newReservation ;;
         let reservationDate := toISODate startDate in
         sid <- newObjectId ;;
         let newStats :=
           IStatistics.mk sid (castDate reservationDate) totalCost
                          IStatistics.pending
                          (IReservation._id newReservation) in
         Statistics.insert newStats ;;
         ret (respond 201
                (JsonReservation
                   "Reservation request created successfully. Waiting for admin approval."
                   newReservation))
     end)
    (fun err => respond 400 (JsonError (message err))).

(** The filter [{ reservationId: i }]. *)
Definition byReservationId (i : ObjectId) (s : IStatistics.t) : bool :=
  IStatistics.reservationId s =? i.

(** [router.patch('/:id/approve')] *)
Definition patch_approve (id : ObjectId) : World -> Response * World :=
  handler
    (reservation <- Reservation.findById id ;;
     match reservation with
     | None => ret (respond 404 (JsonError "Reservation not found"))
     | Some reservation =>
         if negb (IReservation.status_eqb (IReservation.status reservation)
                                          IReservation.pending)
         then ret (respond 400
                     (JsonError "Only pending reservations can be approved"))
         else
           car <- Car.findById (IReservation.carId reservation) ;;
           match car with
           | None => ret (respond 404 (JsonError "Car not found!"))
           | Some car =>
               if negb (ICar.status_eqb (ICar.status car) ICar.available)
               then ret (respond 400 (JsonError "Car is not available!"))
               else
                 let reservation :=
                   IReservation.set_status IReservation.confirmed reservation in
                 Reservation.save reservation ;;
                 statistics <- Statistics.findOne
                                 (byReservationId (IReservation._id reservation)) ;;
                 match statistics with
                 | Some statistics =>
                     Statistics.save
                       (IStatistics.set_paymentStatus IStatistics.confirmed
                                                      statistics)
                 | None => ret tt
                 end ;;
                 Car.save (ICar.set_status ICar.reserved car) ;;
                 ret (respond 200
                        (JsonReservation "Reservation approved successfully"
                                         reservation))
           end
     end)
    (fun err => respond 500 (JsonError (message err))).

(** [router.patch('/:id/reject')] *)
Definition patch_reject (id : ObjectId) : World -> Response * World :=
  handler
    (reservation <- Reservation.findById id ;;
     match reservation with
     | None => ret (respond 404 (JsonError "Reservation not found"))
     | Some reservation =>
         if negb (IReservation.status_eqb (IReservation.status reservation)
                                          IReservation.pending)
         then ret (respond 400
                     (JsonError "Only pending reservations can be rejected"))
         else
           let reservation :=
             IReservation.set_status IReservation.cancelled reservation in
           Reservation.save reservation ;;
           Reservation.deleteOne
             (byId IReservation._id (IReservation._id reservation)) ;;
           deleteResult <- Statistics.deleteOne
                             (byReservationId (IReservation._id reservation)) ;;
           if deleteResult =? 0
           then ret (respond 404
                       (JsonError "No statistics found for this reservation"))
           else ret (respond 200
                       (JsonReservation "Reservation rejected successfully"
                                        reservation))
     end)
    (fun err => respond 500 (JsonError (message err))).

(** The error classes of the lifecycle, as the handlers report them:
    NotFound is status 404, InvalidState is status 400. *)
Definition NotFound (r : Response) : Prop := code r = 404.
Definition InvalidState (r : Response) : Prop := code r = 400.
Definition Succeeded (r : Response) : Prop := code r = 200.

(** * [cronJobs.ts] *)

(** The filter [{ endDate: { $lt: now }, status: 'confirmed' }]. *)
Definition ended (now : Date) (r : IReservation.t) : bool :=
  (IReservation.endDate r <? now)%Z
  && IReservation.status_eqb (IReservation.status r) IReservation.confirmed.

(** The filter
    [{ carId: car._id, startDate: { $lte: now }, endDate: { $gte: now } }]. *)
Definition overlapping (car : ObjectId) (now : Date) (r : IReservation.t)
  : bool :=
  (IReservation.carId r =? car)
  && (IReservation.startDate r <=? now)%Z
  && (IReservation.endDate r >=? now)%Z.

(** The body of the [for] loop, for one reservation of the batch. *)
Definition sweep_one (now : Date) (reservation : IReservation.t)
  : Async unit :=
  car <- Car.findById (IReservation.carId reservation) ;;
  match car with
  | Some car =>
      overlappingReservations <-
        Reservation.find (overlapping (ICar._id car) now) ;;
      if length overlappingReservations =? 0
      then Car.save (ICar.set_status ICar.available car)
      else ret tt
  | None => ret tt
  end ;;
  Reservation.save
    (IReservation.set_status IReservation.completed reservation).

(** The [try] block of the scheduled callback. *)
Definition sweep (now : Date) : Async unit :=
  reservations <- Reservation.find (ended now) ;;
  forEach reservations (sweep_one now).

(** The scheduled callback, run when the clock reads [now]: one
    reconciliation pass.  The [catch] prints and swallows the exception. *)
Definition cronJob (now : Date) (w : World) : World :=
  match sweep now w with
  | (Returned _, w') => w'
  | (Thrown err, w') => console_error "Error updating car statuses:" err w'
  end.

(** * Frames *)

(** A computation keeps a field of the world when, however it ends, the
    field is as it was. *)
Definition keeps {A T} (field : World -> T) (m : Async A) : Prop :=
  forall w, field (snd (m w)) = field w.

(** * Worlds the operations leave, written out *)

(** After the approval of the pending reservation [r] (the one with [_id]
    [id]) on the available car [c]. *)
Definition approved (id : ObjectId) (w : World) (r : IReservation.t)
    (c : ICar.t) : World :=
  let w1 :=
    journal (Updated Reservations id)
      (with_reservations
         (updateOne IReservation._id
            (IReservation.set_status IReservation.confirmed r)
            (reservations w)) w) in
  let w2 :=
    match find (byReservationId id) (statistics w) with
    | Some s =>
        journal (Updated Statisticss (IStatistics._id s))
          (with_statistics
             (updateOne IStatistics._id
                (IStatistics.set_paymentStatus IStatistics.confirmed s)
                (statistics w)) w1)
    | None => w1
    end in
  journal (Updated Cars (IReservation.carId r))
    (with_cars
       (updateOne ICar._id (ICar.set_status ICar.reserved c) (cars w)) w2).

(** After the rejection of the pending reservation [r] (the one with
    [_id] [id]). *)
Definition rejected (id : ObjectId) (w : World) (r : IReservation.t)
  : World :=
  let w1 :=
    journal (Updated Reservations id)
      (with_reservations
         (updateOne IReservation._id
            (IReservation.set_status IReservation.cancelled r)
            (reservations w)) w) in
  let w2 :=
    journal (Deleted Reservations id)
      (with_reservations
         (deleteOne (byId IReservation._id id) (reservations w1)) w1) in
  match deletedId IStatistics._id (byReservationId id) (statistics w) with
  | Some i =>
      journal (Deleted Statisticss i)
        (with_statistics
           (deleteOne (byReservationId id) (statistics w)) w2)
  | None => w2
  end.

(** After one turn of the loop of the reconciliation pass on the
    reservation [r]: the car step, then the reservation step. *)
Definition release_car (now : Date) (r : IReservation.t) (w : World)
  : World :=
  match find (byId ICar._id (IReservation.carId r)) (cars w) with
  | Some c =>
      if length (filter (overlapping (ICar._id c) now) (reservations w)) =? 0
      then journal (Updated Cars (ICar._id c))
             (with_cars
                (updateOne ICar._id (ICar.set_status ICar.available c)
                   (cars w)) w)
      else w
  | None => w
  end.

Definition complete (r : IReservation.t) (w : World) : World :=
  journal (Updated Reservations (IReservation._id r))
    (with_reservations
       (updateOne IReservation._id
          (IReservation.set_status IReservation.completed r)
          (reservations w)) w).

Definition swept_one (now : Date) (r : IReservation.t) (w : World) : World :=
  complete r (release_car now r w).

(** After the whole loop on the batch [l]. *)
Definition swept (now : Date) (l : list IReservation.t) (w : World) : World :=
  fold_left (fun w r => swept_one now r w) l w.

(** The reservation [y] once the reservations whose [_id] is in [ids] have
    been completed. *)
Definition completing (ids : list ObjectId) (y : IReservation.t)
  : IReservation.t :=
  if existsb (Nat.eqb (IReservation._id y)) ids
  then IReservation.set_status IReservation.completed y
  else y.

(** No reservation on the car covers [now]: the test
    [overlappingReservations.length === 0]. *)
Definition idle (now : Date) (car : ObjectId) (rs : list IReservation.t)
  : bool :=
  length (filter (overlapping car now) rs) =? 0.

(** What the loop assumes of its batch: the store has one document per
    [_id], and the batch is made of distinct documents of the store. *)
Definition batch (l : list IReservation.t) (w : World) : Prop :=
  NoDup (map IReservation._id (reservations w))
  /\ incl l (reservations w)
  /\ NoDup (map IReservation._id l).

(** A store operation does not look at the failure schedule. *)
Definition blind {A} (op : World -> Outcome A * World) : Prop :=
  forall fs w, op (with_faults fs w) = (fst (op w), with_faults fs (snd (op w))).

(** A computation is blind to the failure schedule when a run that
    returns would return the same from the empty schedule. *)
Definition erasable {A} (m : Async A) : Prop :=
  forall w a w',
    m w = (Returned a, w') ->
    m (with_faults [] w) = (Returned a, with_faults [] w').

(** * The reconciliation pass the specification describes

    Following the specification's words (a failure while one reservation
    is processed is caught, logged, and the next reservation is processed):
    the loop with a handler of its own around each turn.  Only used to
    compare with [cronJob]. *)
Definition sweep_isolated (now : Date) : Async unit :=
  reservations <- Reservation.find (ended now) ;;
  forEach reservations
    (fun reservation w =>
       match sweep_one now reservation w with
       | (Returned _, w') => (Returned tt, w')
       | (Thrown err, w') =>
           (Returned tt, console_error "Error updating car statuses:" err w')
       end).

Definition cronJob_isolated (now : Date) (w : World) : World :=
  match sweep_isolated now w with
  | (Returned _, w') => w'
  | (Thrown err, w') => console_error "Error updating car statuses:" err w'
  end.

(** * Sample data

    The scenario of the lifecycle: one car, one booking from 2024-01-01 to
    2024-01-05 at a cost of 200, and the clock of 2024-01-06. *)

Definition jan (day : Z) : Date := (1704067200000 + (day - 1) * msPerDay)%Z.

Definition corolla (i : ObjectId) (st : ICar.Status) : ICar.t :=
  ICar.mk i "Toyota" "Corolla" "2020" st 50 "/uploads/corolla.png"
          "compact" ICar.petrol ICar.manual "42000" ICar.small.

Definition booking (i car : ObjectId) (st : IReservation.Status)
  : IReservation.t :=
  IReservation.mk i car 7 (jan 1) (jan 5) st 200.

Definition shadow (i reservation : ObjectId) (st : IStatistics.PaymentStatus)
  : IStatistics.t :=
  IStatistics.mk i (jan 1) 200 st reservation.

(** A store whose reservation 10 names a car that is no longer there. *)
Definition orphaned : World :=
  mkWorld [] [booking 10 1 IReservation.confirmed]
          [shadow 11 10 IStatistics.confirmed] 12 [] [] [].

(** A store with two cars and three reservations: the confirmed 10 on
    car 1 and 20 on car 2, both ended on 2024-01-05, and the pending 21 on
    car 2, from 2024-01-06 to 2024-01-09. *)
Definition fleet : World :=
  mkWorld [corolla 1 ICar.reserved; corolla 2 ICar.reserved]
          [booking 10 1 IReservation.confirmed;
           booking 20 2 IReservation.confirmed;
           IReservation.mk 21 2 8 (jan 6) (jan 9) IReservation.pending 150]
          [] 30 [] [] [].

(** The fleet, with a store that answers the first call and fails the
    second one. *)
Definition interrupted : World :=
  with_faults [None; Some "connection reset"] fleet.

(** A store with car 1, reservation 10 on it and the statistics record 11
    of that reservation. *)
Definition store (cst : ICar.Status) (rst : IReservation.Status) : World :=
  mkWorld [corolla 1 cst] [booking 10 1 rst]
          [shadow 11 10 IStatistics.pending] 12 [] [] [].

(** * The other routes: replies *)

(** The JSON body of a reply: the data itself ([res.json(data)]),
    [{ error }], [{ message }], or [{ message, ...data }]. *)
Inductive Json (A : Type) :=
| Data (a : A)
| ErrorJson (error : string)
| MessageJson (msg : string)
| MessageData (msg : string) (a : A).
Arguments Data {A} a.
Arguments ErrorJson {A} error.
Arguments MessageJson {A} msg.
Arguments MessageData {A} msg a.

(** [res.status(code).json(body)]; [res.json(body)] has status 200. *)
Record Reply (A : Type) := reply { reply_code : nat; reply_body : Json A }.
Arguments reply {A} reply_code reply_body.
Arguments reply_code {A} r.
Arguments reply_body {A} r.

(** * [routes/reservationRoutes.ts]: the reserved dates of a car *)

(** The filter [{ carId: carId }]. *)
Definition byCarId (car : ObjectId) (r : IReservation.t) : bool :=
  IReservation.carId r =? car.

(** [reservations.map(r => ({ startDate, endDate }))] *)
Definition intervals (rs : list IReservation.t) : list (Date * Date) :=
  map (fun r => (IReservation.startDate r, IReservation.endDate r)) rs.

(** [router.get('/getReservedDates/:carId')]; its [catch] prints the
    exception and answers a fixed text. *)
Definition get_reservedDates (carId : ObjectId)
  : World -> Reply (list (Date * Date)) * World :=
  fun w =>
    match (reservations <- Reservation.find (byCarId carId) ;;
           let reservedDates := intervals reservations in
           ret (reply 200 (Data reservedDates))) w with
    | (Returned r, w') => (r, w')
    | (Thrown error, w') =>
        (reply 500 (ErrorJson "Internal Server Error"),
         console_error "Error fetching reservations:" error w')
    end.

(** * The statistics routes: the revenue overview *)

(** [Statistics.aggregate([{ $match: q }, { $group: { _id: null,
    totalRevenue: { $sum: '$revenue' } } }])]: one group document when a
    record matches, none otherwise. *)
Definition aggregate_totalRevenue (q : IStatistics.t -> bool)
  : Async (list Z) :=
  await (fun w =>
    (Returned
       match filter q (statistics w) with
       | [] => []
       | matched =>
           [fold_right Z.add 0%Z (map IStatistics.revenue matched)]
       end,
     w)).

(** The filter [{ date: { $gte: startDate, $lt: endDate } }]. *)
Definition dateWithin (startDate endDate : Date) (s : IStatistics.t) : bool :=
  (startDate <=? IStatistics.date s)%Z && (IStatistics.date s <? endDate)%Z.

(** [router.get('/overview')].  The query parameter [date], when it is a
    non-empty string, is given by the instant [new Date(date)] it denotes.
    [endDate.setDate(endDate.getDate() + 1)] steps one calendar day in the
    local time zone of the server: the step is the parameter [nextDay]. *)
Definition get_overview (nextDay : Date -> Date) (date : option Date)
  : World -> Reply Z * World :=
  fun w =>
    match (let q :=
             match date with
             | Some startDate =>
                 let endDate := nextDay startDate in
                 dateWithin startDate endDate
             | None => fun _ => true
             end in
           result <- aggregate_totalRevenue q ;;
           let totalRevenue :=
             match result with
             | group :: _ => group
             | [] => 0%Z
             end in
           ret (reply 200 (Data totalRevenue))) w with
    | (Returned r, w') => (r, w')
    | (Thrown err, w') => (reply 400 (ErrorJson (message err)), w')
    end.

(** * The car routes that the lifecycle meets *)

(** [Car.findByIdAndDelete(id)]: one store call; the deleted document, or
    null. *)
Definition Car_findByIdAndDelete (i : ObjectId) : Async (option ICar.t) :=
  await (fun w =>
    (Returned (find (byId ICar._id i) (cars w)),
     match find (byId ICar._id i) (cars w) with
     | Some _ =>
         journal (Deleted Cars i)
                 (with_cars (deleteOne (byId ICar._id i) (cars w)) w)
     | None => w
     end)).

(** [router.delete('/:id')] of the car routes. *)
Definition delete_car (id : ObjectId) : World -> Reply unit * World :=
  fun w =>
    match (car <- Car_findByIdAndDelete id ;;
           match car with
           | None => ret (reply 404 (ErrorJson "Car not found"))
           | Some _ => ret (reply 200 (MessageJson "Car deleted successfully"))
           end) w with
    | (Returned r, w') => (r, w')
    | (Thrown err, w') => (reply 500 (ErrorJson (message err)), w')
    end.

Definition vehicleSize_eqb (a b : ICar.VehicleSize) : bool :=
  match a, b with
  | ICar.small, ICar.small | ICar.medium, ICar.medium
  | ICar.large, ICar.large => true
  | _, _ => false
  end.

(** The filter [{ _id: { $ne: car._id }, $or: [{ vehicleSize:
    car.vehicleSize }, { dailyRate: { $gte: car.dailyRate - 50, $lte:
    car.dailyRate + 50 } }] }]. *)
Definition similarTo (car x : ICar.t) : bool :=
  negb (ICar._id x =? ICar._id car)
  && (vehicleSize_eqb (ICar.vehicleSize x) (ICar.vehicleSize car)
      || ((ICar.dailyRate car - 50 <=? ICar.dailyRate x)%Z
          && (ICar.dailyRate x <=? ICar.dailyRate car + 50)%Z)).

(** [Car.find(q).limit(n)] *)
Definition Car_find_limit (q : ICar.t -> bool) (n : nat)
  : Async (list ICar.t) :=
  await (fun w => (Returned (firstn n (filter q (cars w))), w)).

(** [router.get('/similar/:carId')] *)
Definition get_similar (carId : ObjectId)
  : World -> Reply (list ICar.t) * World :=
  fun w =>
    match (car <- Car.findById carId ;;
           match car with
           | None => ret (reply 404 (MessageJson "Car not found"))
           | Some car =>
               similarCars <- Car_find_limit (similarTo car) 5 ;;
               ret (reply 200 (Data similarCars))
           end) w with
    | (Returned r, w') => (r, w')
    | (Thrown err, w') => (reply 500 (ErrorJson (message err)), w')
    end.

(** After a creation that went through. *)
Definition created (userId carId : ObjectId) (startDate endDate : Date)
    (totalCost : Z) (w : World) : World :=
  let r := IReservation.mk (nextId w) carId userId startDate endDate
                           IReservation.pending totalCost in
  let s := IStatistics.mk (S (nextId w)) (castDate (toISODate startDate))
                          totalCost IStatistics.pending (nextId w) in
  journal (Inserted Statisticss (S (nextId w)))
    (with_statistics (statistics w ++ [s])
       (with_nextId (S (S (nextId w)))
          (journal (Inserted Reservations (nextId w))
             (with_reservations (reservations w ++ [r])
                (with_nextId (S (nextId w)) w))))).

(** The revenue the overview adds up. *)
Definition revenueOf (q : IStatistics.t -> bool) (ss : list IStatistics.t)
  : Z :=
  fold_right Z.add 0%Z (map IStatistics.revenue (filter q ss)).

(** * Users, and the two middlewares in front of the routes *)

From Stdlib Require Import Ascii.

(** [models/User.ts] *)
Module IUser.
Inductive Role := admin | user.

Record Profile := mkProfile {
  firstName : string;
  lastName : string;
  phone : string;
  address : string
}.

Record t := mk {
  _id : ObjectId;
  username : string;
  email : string;
  password : string;
  role : Role;
  profile : Profile;
  reservedCars : list ObjectId
}.

(** The document under [.select('-password')]. *)
Record View := view {
  v_id : ObjectId;
  v_username : string;
  v_email : string;
  v_role : Role;
  v_profile : Profile;
  v_reservedCars : list ObjectId
}.

Definition select_minus_password (u : t) : View :=
  view (_id u) (username u) (email u) (role u) (profile u) (reservedCars u).

Definition set_role (r : Role) (u : t) : t :=
  mk (_id u) (username u) (email u) (password u) r (profile u)
     (reservedCars u).
End IUser.

(** The store with its users beside the three collections of the
    lifecycle; the failure schedule is the one of [db]. *)
Record Backend := mkBackend { db : World; users : list IUser.t }.

(** A handler of the lifecycle, run in the whole store. *)
Definition on_db {R} (h : World -> R * World) : Backend -> R * Backend :=
  fun b => let (r, w) := h (db b) in (r, mkBackend w (users b)).

(** [await] of a store call on the users. *)
Definition await_users {A} (op : list IUser.t -> A * list IUser.t)
  : Backend -> Outcome A * Backend :=
  fun b =>
    match faults (db b) with
    | Some m :: fs =>
        (Thrown (StoreError m), mkBackend (with_faults fs (db b)) (users b))
    | None :: fs =>
        let (a, us) := op (users b) in
        (Returned a, mkBackend (with_faults fs (db b)) us)
    | [] => let (a, us) := op (users b) in (Returned a, mkBackend (db b) us)
    end.

(** [User.findById(i)] *)
Definition User_findById (i : ObjectId)
  : Backend -> Outcome (option IUser.t) * Backend :=
  await_users (fun us => (find (byId IUser._id i) us, us)).

(** [User.findByIdAndUpdate(i, { role }, { new: true })]: the updated
    document, or null. *)
Definition User_findByIdAndUpdate_role (i : ObjectId) (role : IUser.Role)
  : Backend -> Outcome (option IUser.t) * Backend :=
  await_users (fun us =>
    match find (byId IUser._id i) us with
    | Some u =>
        (Some (IUser.set_role role u),
         updateOne IUser._id (IUser.set_role role u) us)
    | None => (None, us)
    end).

(** [s.split(' ')] of JavaScript: the pieces between the spaces, empty
    pieces included. *)
Fixpoint split_space (s : string) : list string :=
  match s with
  | EmptyString => [EmptyString]
  | String c s' =>
      if Ascii.eqb c " "%char
      then EmptyString :: split_space s'
      else match split_space s' with
           | piece :: pieces => String c piece :: pieces
           | [] => [String c EmptyString]
           end
  end.

(** [req.headers['authorization']?.split(' ')[1]] *)
Definition token_of (authorization : option string) : option string :=
  match authorization with
  | Some header => nth_error (split_space header) 1
  | None => None
  end.

(** The payload that [/login] signs into a token. *)
Record Claims := claims { claim_userId : ObjectId; claim_role : IUser.Role }.

(** [middleware/authMiddleware.ts].  [jwt.verify(token, JWT_SECRET)] is
    the parameter [verify]: the payload of a token it accepts, nothing
    when it throws.  [deny] builds the reply [res.status(code).json({
    error })] in the reply type of the route; [next] receives what the
    middleware left in [req.user].  The [console.log] lines are not
    modelled. *)
Definition authenticate {R} (verify : string -> option Claims)
    (deny : nat -> string -> R) (authorization : option string)
    (next : option IUser.View -> Backend -> R * Backend)
  : Backend -> R * Backend :=
  fun b =>
    match token_of authorization with
    | None | Some EmptyString => (deny 401 "No token provided", b)
    | Some token =>
        match verify token with
        | None => (deny 401 "Invalid token here", b)
        | Some decoded =>
            match User_findById (claim_userId decoded) b with
            | (Returned found, b') =>
                next (option_map IUser.select_minus_password found) b'
            | (Thrown _, b') => (deny 401 "Invalid token here", b')
            end
        end
    end.

(** The admin middleware: [user && user.role === 'admin']. *)
Definition isAdmin {R} (deny : nat -> string -> R)
    (user : option IUser.View) (next : Backend -> R * Backend)
  : Backend -> R * Backend :=
  match user with
  | Some u =>
      match IUser.v_role u with
      | IUser.admin => next
      | IUser.user => fun b => (deny 403 "Access denied", b)
      end
  | None => fun b => (deny 403 "Access denied", b)
  end.

(** A route mounted as [router.verb(path, authenticate, isAdmin, h)]. *)
Definition admin_only {R} (verify : string -> option Claims)
    (deny : nat -> string -> R) (authorization : option string)
    (h : Backend -> R * Backend) : Backend -> R * Backend :=
  authenticate verify deny authorization (fun user => isAdmin deny user h).

(** A route mounted as [router.verb(path, authenticate, h)]. *)
Definition authenticated {R} (verify : string -> option Claims)
    (deny : nat -> string -> R) (authorization : option string)
    (h : Backend -> R * Backend) : Backend -> R * Backend :=
  authenticate verify deny authorization (fun _ => h).

Definition deny_response (code : nat) (error : string) : Response :=
  respond code (JsonError error).

Definition deny_reply {A} (code : nat) (error : string) : Reply A :=
  reply code (ErrorJson error).

(** The routes of the lifecycle, as [routes/reservationRoutes.ts] mounts
    them. *)
Definition create_route verify authorization
    (userId carId : ObjectId) (startDate endDate : Date) (totalCost : Z)
  : Backend -> Response * Backend :=
  authenticated verify deny_response authorization
    (on_db (post_reservation userId carId startDate endDate totalCost)).

Definition approve_route verify authorization (id : ObjectId)
  : Backend -> Response * Backend :=
  admin_only verify deny_response authorization (on_db (patch_approve id)).

Definition reject_route verify authorization (id : ObjectId)
  : Backend -> Response * Backend :=
  admin_only verify deny_response authorization (on_db (patch_reject id)).

(** [router.put('/grantAdmin/:id')] and [router.put('/revokeAdmin/:id')]
    of [routes/userRoutes.ts]: the handler, then the route. *)
Definition put_role (role : IUser.Role) (msg : string) (id : ObjectId)
  : Backend -> Reply IUser.t * Backend :=
  fun b =>
    match User_findByIdAndUpdate_role id role b with
    | (Returned (Some u), b') => (reply 200 (MessageData msg u), b')
    | (Returned None, b') => (reply 404 (ErrorJson "User not found"), b')
    | (Thrown err, b') => (reply 500 (ErrorJson (message err)), b')
    end.

Definition grantAdmin_route verify authorization (id : ObjectId)
  : Backend -> Reply IUser.t * Backend :=
  admin_only verify deny_reply authorization
    (put_role IUser.admin "Admin access granted successfully" id).

Definition revokeAdmin_route verify authorization (id : ObjectId)
  : Backend -> Reply IUser.t * Backend :=
  admin_only verify deny_reply authorization
    (put_role IUser.user "Admin access revoked sucessfully" id).

(** The header has a space. *)
Fixpoint has_space (s : string) : bool :=
  match s with
  | EmptyString => false
  | String c s' => Ascii.eqb c " "%char || has_space s'
  end.

(** Two stores hold the same documents and the same journal; their
    failure schedules may differ. *)
Definition same_data (b b' : Backend) : Prop :=
  users b' = users b
  /\ cars (db b') = cars (db b)
  /\ reservations (db b') = reservations (db b)
  /\ statistics (db b') = statistics (db b)
  /\ writes (db b') = writes (db b).

(** Sample users and tokens: a toy [verify] that reads the user off the
    token and, like the role a login signed in the past, calls everyone
    an admin. *)
Definition member (i : ObjectId) (r : IUser.Role) : IUser.t :=
  IUser.mk i "ana" "ana@example.com" "$2b$10$hash" r
           (IUser.mkProfile "Ana" "Kos" "555" "Main St") [].

Definition toy_verify (token : string) : option Claims :=
  if String.eqb token "t7" then Some (claims 7 IUser.admin)
  else if String.eqb token "t9" then Some (claims 9 IUser.admin)
  else None.

Definition office : Backend :=
  mkBackend (store ICar.available IReservation.pending)
            [member 7 IUser.user; member 9 IUser.admin].

(** * The statistics routes: the records of a range of dates *)

(** [Statistics.find(q)] *)
Definition Statistics_find (q : IStatistics.t -> bool)
  : Async (list IStatistics.t) :=
  await (fun w => (Returned (filter q (statistics w)), w)).

(** The filter [{ date: { $gte: startDate, $lte: endDate } }]. *)
Definition dateBetween (startDate endDate : Date) (s : IStatistics.t) : bool :=
  (startDate <=? IStatistics.date s)%Z && (IStatistics.date s <=? endDate)%Z.

(** [router.get('/date')].  A query parameter that is a non-empty string
    is given by the instant [new Date(...)] it denotes; a parameter that
    is missing or empty is [None]. *)
Definition get_statistics_date (startDate endDate : option Date)
  : World -> Reply (list IStatistics.t) * World :=
  fun w =>
    match (match startDate, endDate with
           | Some startDate, Some endDate =>
               statistics <- Statistics_find (dateBetween startDate endDate) ;;
               ret (reply 200 (Data statistics))
           | _, _ =>
               ret (reply 400
                      (ErrorJson "Start date and end date are required"))
           end) w with
    | (Returned r, w') => (r, w')
    | (Thrown err, w') => (reply 500 (ErrorJson (message err)), w')
    end.

(** * Facts about collections *)

Section CollectionFacts.
Context {D : Type} (key : D -> ObjectId).

Lemma byId_true i d : byId key i d = true <-> key d = i.
Proof. unfold byId. apply Nat.eqb_eq. Qed.

Lemma find_byId_key i l d : find (byId key i) l = Some d -> key d = i.
Proof. intros H. apply find_some in H. now apply byId_true. Qed.

Lemma find_byId_existsb i l d :
  find (byId key i) l = Some d -> existsb (byId key i) l = true.
Proof.
  intros H. apply find_some in H. apply existsb_exists. now exists d.
Qed.

Lemma find_existsb (q : D -> bool) l d :
  find q l = Some d -> existsb q l = true.
Proof.
  intros H. apply find_some in H. apply existsb_exists. now exists d.
Qed.

Lemma find_none_existsb (q : D -> bool) l :
  find q l = None -> existsb q l = false.
Proof.
  intros H. destruct (existsb q l) eqn:E; [|reflexivity].
  apply existsb_exists in E. destruct E as [x [Hin Hq]].
  now rewrite (find_none _ _ H x Hin) in Hq.
Qed.

Lemma existsb_In_key i l :
  existsb (byId key i) l = true <-> In i (map key l).
Proof.
  rewrite existsb_exists, in_map_iff. split.
  - intros [x [Hin Hx]]. exists x. split; [now apply byId_true | assumption].
  - intros [x [Hx Hin]]. exists x. split; [assumption | now apply byId_true].
Qed.

Lemma map_key_updateOne d l : map key (updateOne key d l) = map key l.
Proof.
  induction l as [|x xs IH]; cbn; [reflexivity|].
  destruct (byId key (key d) x) eqn:E; cbn.
  - apply byId_true in E. now rewrite E.
  - now rewrite IH.
Qed.

Lemma length_updateOne d l : length (updateOne key d l) = length l.
Proof.
  rewrite <- (length_map key), map_key_updateOne. apply length_map.
Qed.

Lemma find_updateOne_same d l :
  existsb (byId key (key d)) l = true ->
  find (byId key (key d)) (updateOne key d l) = Some d.
Proof.
  induction l as [|x xs IH]; cbn; [discriminate|].
  destruct (byId key (key d) x) eqn:E; cbn.
  - intros _. unfold byId. now rewrite Nat.eqb_refl.
  - rewrite E. exact IH.
Qed.

Lemma find_updateOne_other i d l :
  key d <> i ->
  find (byId key i) (updateOne key d l) = find (byId key i) l.
Proof.
  intros Hne. induction l as [|x xs IH]; cbn; [reflexivity|].
  destruct (byId key (key d) x) eqn:E; cbn.
  - apply byId_true in E.
    assert (Hx : byId key i x = false)
      by (unfold byId; apply Nat.eqb_neq; congruence).
    assert (Hd : byId key i d = false)
      by (unfold byId; now apply Nat.eqb_neq).
    now rewrite Hx, Hd.
  - destruct (byId key i x); [reflexivity | exact IH].
Qed.

(** With unique keys, the update touches exactly the document itself. *)
Lemma updateOne_map d l :
  NoDup (map key l) ->
  updateOne key d l = map (fun x => if byId key (key d) x then d else x) l.
Proof.
  induction l as [|x xs IH]; cbn; [reflexivity|].
  intros Hnd. inversion Hnd as [|k ks Hnotin Hnd']; subst.
  destruct (byId key (key d) x) eqn:E.
  - f_equal. apply byId_true in E.
    rewrite <- (map_id xs) at 1. apply map_ext_in.
    intros y Hy. destruct (byId key (key d) y) eqn:Ey; [|reflexivity].
    apply byId_true in Ey. exfalso. apply Hnotin.
    rewrite E, <- Ey. now apply in_map.
  - f_equal. now apply IH.
Qed.

Lemma length_deleteOne (q : D -> bool) l :
  length (deleteOne q l) + deletedCount q l = length l.
Proof.
  unfold deletedCount. induction l as [|x xs IH]; cbn; [reflexivity|].
  destruct (q x); cbn; [lia|].
  destruct (existsb q xs); lia.
Qed.

(** [deleteOne] removes the document that [find] returns. *)
Lemma deleteOne_split (q : D -> bool) l d :
  find q l = Some d ->
  exists l1 l2,
    l = l1 ++ d :: l2 /\ deleteOne q l = l1 ++ l2 /\ existsb q l1 = false.
Proof.
  induction l as [|x xs IH]; cbn; [discriminate|].
  destruct (q x) eqn:E.
  - intros [= <-]. now exists [], xs.
  - intros H. destruct (IH H) as (l1 & l2 & -> & -> & Hn).
    exists (x :: l1), l2. cbn. now rewrite E.
Qed.

(** With unique keys, a document deleted by [_id] cannot be found again. *)
Lemma find_deleteOne_byId i l :
  NoDup (map key l) ->
  find (byId key i) (deleteOne (byId key i) l) = None.
Proof.
  induction l as [|x xs IH]; cbn; [reflexivity|].
  intros Hnd. inversion Hnd as [|k ks Hnotin Hnd']; subst.
  destruct (byId key i x) eqn:E; cbn.
  - apply byId_true in E. subst i.
    destruct (find (byId key (key x)) xs) eqn:F; [|reflexivity].
    exfalso. apply Hnotin. apply existsb_In_key.
    eapply find_byId_existsb; eassumption.
  - rewrite E. now apply IH.
Qed.

Lemma find_deleteOne_other (q : D -> bool) i l :
  (forall x, q x = true -> key x <> i) ->
  find (byId key i) (deleteOne q l) = find (byId key i) l.
Proof.
  intros Hq. induction l as [|x xs IH]; cbn; [reflexivity|].
  destruct (q x) eqn:E; cbn.
  - assert (Hx : byId key i x = false)
      by (unfold byId; apply Nat.eqb_neq; now apply Hq).
    now rewrite Hx.
  - now rewrite IH.
Qed.
End CollectionFacts.

Lemma find_map_key {D} (key : D -> ObjectId) (g : D -> D) i l :
  (forall x, key (g x) = key x) ->
  find (byId key i) (map g l) = option_map g (find (byId key i) l).
Proof.
  intros Hg. induction l as [|x xs IH]; cbn; [reflexivity|].
  unfold byId at 1. rewrite Hg. fold (byId key i x).
  destruct (byId key i x); [reflexivity | exact IH].
Qed.

(** With unique [_id]s, updating the document a filter finds first leaves
    it the first one the filter finds. *)
Lemma find_updateOne_linked {D} (key : D -> ObjectId) (q : D -> bool) s s' l :
  NoDup (map key l) ->
  find q l = Some s -> key s' = key s -> q s' = true ->
  find q (updateOne key s' l) = Some s'.
Proof.
  intros Hnd Hf Hk Hq. induction l as [|x xs IH]; cbn in *; [discriminate|].
  inversion Hnd as [|k ks Hnotin Hnd']; subst.
  destruct (q x) eqn:E.
  - injection Hf as ->. unfold byId. rewrite Hk, Nat.eqb_refl. cbn.
    now rewrite Hq.
  - destruct (byId key (key s') x) eqn:B.
    + exfalso. apply Hnotin. apply byId_true in B. rewrite B, Hk.
      apply in_map. apply find_some in Hf. tauto.
    + cbn. rewrite E. now apply IH.
Qed.

(** * Running store calls *)

(** Reads a field through the updates of the other fields. *)
Ltac world :=
  cbn [cars reservations statistics nextId faults writes console
       journal with_cars with_reservations with_statistics with_nextId
       with_faults console_error].

(** In a world whose failure schedule is empty, a store call is the
    operation itself. *)
Lemma await_quiet {A} (op : World -> Outcome A * World) w :
  faults w = [] -> await op w = op w.
Proof. unfold await. now intros ->. Qed.

(** * Approve *)

Section Approve.
Variables (id : ObjectId) (w : World) (r : IReservation.t) (c : ICar.t).
Hypothesis quiet : faults w = [].
Hypothesis found : find (byId IReservation._id id) (reservations w) = Some r.
Hypothesis car_found :
  find (byId ICar._id (IReservation.carId r)) (cars w) = Some c.

Lemma approve_refused :
  ~ (IReservation.status r = IReservation.pending
     /\ ICar.status c = ICar.available) ->
  exists msg, patch_approve id w = (respond 400 (JsonError msg), w).
Proof.
  intros Hn.
  unfold patch_approve, handler, bind, Reservation.findById, Car.findById.
  rewrite await_quiet by assumption. rewrite found.
  destruct (IReservation.status r) eqn:Es; cbn; try (eexists; reflexivity).
  rewrite await_quiet by assumption. rewrite car_found.
  destruct (ICar.status c) eqn:Ec; cbn; try (eexists; reflexivity).
  exfalso. apply Hn. now split.
Qed.

Lemma approve_run :
  IReservation.status r = IReservation.pending ->
  ICar.status c = ICar.available ->
  patch_approve id w
  = (respond 200 (JsonReservation "Reservation approved successfully"
              (IReservation.set_status IReservation.confirmed r)),
     approved id w r c).
Proof.
  intros Hs Ha.
  assert (Hid : IReservation._id r = id)
    by (eapply find_byId_key; eassumption).
  assert (Hcid : ICar._id c = IReservation.carId r)
    by (eapply find_byId_key; eassumption).
  unfold patch_approve, handler, bind, Reservation.findById, Car.findById.
  rewrite await_quiet by assumption. rewrite found, Hs. cbn.
  rewrite await_quiet by assumption. rewrite car_found, Ha. cbn.
  unfold Reservation.save. rewrite await_quiet by assumption.
  cbn [IReservation._id IReservation.set_status]. rewrite Hid.
  rewrite (find_byId_existsb _ _ _ _ found).
  unfold Statistics.findOne. rewrite await_quiet by assumption.
  world. unfold approved.
  destruct (find (byReservationId id) (statistics w)) as [s|] eqn:Fs.
  - unfold Statistics.save. rewrite await_quiet by assumption.
    cbn [IStatistics._id IStatistics.set_paymentStatus].
    assert (Hex : existsb (byId IStatistics._id (IStatistics._id s))
                    (statistics w) = true).
    { apply existsb_exists. exists s. apply find_some in Fs.
      split; [tauto | now apply byId_true]. }
    world. rewrite Hex. unfold Car.save. rewrite await_quiet by assumption.
    world. cbn [ICar._id ICar.set_status].
    rewrite Hcid, (find_byId_existsb _ _ _ _ car_found). reflexivity.
  - unfold ret, Car.save. rewrite await_quiet by assumption.
    world. cbn [ICar._id ICar.set_status].
    rewrite Hcid, (find_byId_existsb _ _ _ _ car_found). reflexivity.
Qed.
End Approve.

(** C1. Approving a pending reservation whose car is available answers
    200, leaves the reservation confirmed and the car reserved, and
    confirms the payment status of the statistics record linked to the
    reservation; when no statistics record is linked, the statistics are
    left as they were and the approval succeeds all the same. *)
Theorem approve_effect id w r c :
  faults w = [] ->
  NoDup (map IStatistics._id (statistics w)) ->
  find (byId IReservation._id id) (reservations w) = Some r ->
  IReservation.status r = IReservation.pending ->
  find (byId ICar._id (IReservation.carId r)) (cars w) = Some c ->
  ICar.status c = ICar.available ->
  let w' := snd (patch_approve id w) in
  Succeeded (fst (patch_approve id w))
  /\ find (byId IReservation._id id) (reservations w')
     = Some (IReservation.set_status IReservation.confirmed r)
  /\ find (byId ICar._id (IReservation.carId r)) (cars w')
     = Some (ICar.set_status ICar.reserved c)
  /\ match find (byReservationId id) (statistics w) with
     | Some s =>
         find (byReservationId id) (statistics w')
         = Some (IStatistics.set_paymentStatus IStatistics.confirmed s)
     | None => statistics w' = statistics w
     end.
Proof.
  intros Hq Hnd Hr Hs Hc Ha w'. subst w'.
  rewrite (approve_run id w r c Hq Hr Hc Hs Ha). cbn [fst snd].
  assert (Hid : IReservation._id r = id)
    by (eapply find_byId_key; eassumption).
  assert (Hcid : ICar._id c = IReservation.carId r)
    by (eapply find_byId_key; eassumption).
  split; [reflexivity|]. unfold approved. split; [|split].
  - destruct (find (byReservationId id) (statistics w)); world;
      rewrite <- Hid at 1;
      change (IReservation._id r)
        with (IReservation._id
                (IReservation.set_status IReservation.confirmed r)) at 1;
      apply find_updateOne_same; cbn [IReservation._id IReservation.set_status];
      rewrite Hid; eapply find_byId_existsb; eassumption.
  - world. rewrite <- Hcid at 1.
    change (ICar._id c)
      with (ICar._id (ICar.set_status ICar.reserved c)) at 1.
    apply find_updateOne_same. cbn [ICar._id ICar.set_status].
    rewrite Hcid. eapply find_byId_existsb; eassumption.
  - destruct (find (byReservationId id) (statistics w)) as [s|] eqn:Fs; world.
    + apply find_updateOne_linked with (s := s); try assumption.
      * reflexivity.
      * apply find_some in Fs. exact (proj2 Fs).
    + reflexivity.
Qed.

Lemma approve_effect_witness :
  let w := store ICar.available IReservation.pending in
  let w' := snd (patch_approve 10 w) in
  Succeeded (fst (patch_approve 10 w))
  /\ find (byId IReservation._id 10) (reservations w')
     = Some (booking 10 1 IReservation.confirmed)
  /\ find (byId ICar._id 1) (cars w') = Some (corolla 1 ICar.reserved)
  /\ find (byReservationId 10) (statistics w')
     = Some (shadow 11 10 IStatistics.confirmed).
Proof.
  apply (approve_effect 10 (store ICar.available IReservation.pending)
           (booking 10 1 IReservation.pending) (corolla 1 ICar.available));
    try reflexivity.
  cbn. constructor; [intros [] | constructor].
Defined.

(** C2. An approval succeeds only if the reservation is pending and its
    car is available; for every other pair of a reservation status and a
    car status it answers 400 (InvalidState) and leaves the whole world as
    it was: no record is written, nothing enters the journal of writes. *)
Theorem approve_guard id w r c :
  faults w = [] ->
  find (byId IReservation._id id) (reservations w) = Some r ->
  find (byId ICar._id (IReservation.carId r)) (cars w) = Some c ->
  (Succeeded (fst (patch_approve id w)) ->
   IReservation.status r = IReservation.pending
   /\ ICar.status c = ICar.available)
  /\ (~ (IReservation.status r = IReservation.pending
         /\ ICar.status c = ICar.available) ->
      InvalidState (fst (patch_approve id w))
      /\ snd (patch_approve id w) = w).
Proof.
  intros Hq Hr Hc.
  assert (Hrefused :
            ~ (IReservation.status r = IReservation.pending
               /\ ICar.status c = ICar.available) ->
            InvalidState (fst (patch_approve id w))
            /\ snd (patch_approve id w) = w).
  { intros Hn. destruct (approve_refused id w r c Hq Hr Hc Hn) as [msg ->].
    now split. }
  split; [|exact Hrefused].
  intros Hok.
  destruct (IReservation.status r) eqn:Es, (ICar.status c) eqn:Ec;
    try (split; reflexivity); exfalso;
    (destruct Hrefused as [Hbad _];
     [intros [? ?]; discriminate
     | unfold Succeeded, InvalidState in *; rewrite Hbad in Hok; discriminate]).
Qed.

Lemma approve_guard_witness :
  let w := store ICar.rented IReservation.pending in
  InvalidState (fst (patch_approve 10 w)) /\ snd (patch_approve 10 w) = w.
Proof.
  apply (approve_guard 10 (store ICar.rented IReservation.pending)
           (booking 10 1 IReservation.pending) (corolla 1 ICar.rented));
    try reflexivity.
  intros [_ H]. discriminate H.
Defined.

(** * Create *)

Lemma calendar_date (d : Date) :
  (castDate (toISODate d) <= d < castDate (toISODate d) + msPerDay)%Z
  /\ (castDate (toISODate d) mod msPerDay = 0)%Z.
Proof.
  unfold castDate, toISODate, msPerDay. split.
  - pose proof (Z.div_mod d 86400000 ltac:(lia)) as E.
    pose proof (Z.mod_pos_bound d 86400000 ltac:(lia)) as B. lia.
  - apply Z.mod_mul. lia.
Qed.

Section Keeps.
Context {T : Type} (field : World -> T).
Hypothesis field_faults : forall fs w, field (with_faults fs w) = field w.

Lemma keeps_ret {A} (a : A) : keeps field (ret a).
Proof. intros w. reflexivity. Qed.

Lemma keeps_bind {A B} (m : Async A) (k : A -> Async B) :
keeps field m -> (forall a, keeps field (k a)) -> keeps field (bind m k).
Proof.
intros Hm Hk w. unfold bind. specialize (Hm w).
destruct (m w) as [[a|e] w1]; cbn [snd] in *.
- now rewrite Hk.
- exact Hm.
Qed.

Lemma keeps_await {A} (op : World -> Outcome A * World) :
(forall w, field (snd (op w)) = field w) -> keeps field (await op).
Proof.
intros Hop w. unfold await.
destruct (faults w) as [|[m|] fs]; cbn [snd].
- apply Hop.
- apply field_faults.
- now rewrite Hop, field_faults.
Qed.

Lemma keeps_handler (try : Async Response) (catch : Exn -> Response) w :
keeps field try -> field (snd (handler try catch w)) = field w.
Proof.
intros H. unfold handler. specialize (H w).
now destruct (try w) as [[a|e] w1].
Qed.
End Keeps.

(** Create never writes to the cars, whatever the store does. *)
Lemma create_keeps_cars userId carId startDate endDate totalCost w :
  cars (snd (post_reservation userId carId startDate endDate totalCost w))
  = cars w.
Proof.
  assert (Hf : forall fs w0, cars (with_faults fs w0) = cars w0)
    by reflexivity.
  unfold post_reservation. apply (keeps_handler cars).
  apply keeps_bind; [apply (keeps_await cars Hf); reflexivity|].
  intros [car|]; [|apply keeps_ret].
  apply keeps_bind; [intros w0; reflexivity|]. intros rid.
  apply keeps_bind; [apply (keeps_await cars Hf); reflexivity|]. intros _.
  apply keeps_bind; [intros w0; reflexivity|]. intros sid.
  apply keeps_bind; [apply (keeps_await cars Hf); reflexivity|]. intros _.
  apply keeps_ret.
Qed.

(** C3. When the car exists (and the store does not fail), Create answers
    201 and appends exactly one pending reservation and exactly one
    statistics record: the record carries the revenue [totalCost], the
    payment status pending, the [_id] of the new reservation, and as date
    the midnight (UTC) of the day of [startDate]; the cars are unchanged. *)
Theorem create_effect userId carId startDate endDate totalCost w c :
  faults w = [] ->
  find (byId ICar._id carId) (cars w) = Some c ->
  let r := IReservation.mk (nextId w) carId userId startDate endDate
                           IReservation.pending totalCost in
  let s := IStatistics.mk (S (nextId w)) (castDate (toISODate startDate))
                          totalCost IStatistics.pending (nextId w) in
  let w' := snd (post_reservation userId carId startDate endDate totalCost w) in
  (exists msg,
      fst (post_reservation userId carId startDate endDate totalCost w)
      = respond 201 (JsonReservation msg r))
  /\ reservations w' = reservations w ++ [r]
  /\ statistics w' = statistics w ++ [s]
  /\ cars w' = cars w
  /\ writes w' = writes w ++ [Inserted Reservations (IReservation._id r);
                              Inserted Statisticss (IStatistics._id s)]
  /\ IStatistics.reservationId s = IReservation._id r
  /\ (IStatistics.date s <= startDate < IStatistics.date s + msPerDay)%Z
  /\ (IStatistics.date s mod msPerDay = 0)%Z.
Proof.
  intros Hq Hc r s w'. subst w'.
  unfold post_reservation, handler, bind, Car.findById, Reservation.insert,
    Statistics.insert, newObjectId, ret.
  rewrite await_quiet by assumption. rewrite Hc.
  rewrite await_quiet by assumption. world.
  rewrite await_quiet by assumption. world. cbn [fst snd].
  split; [eexists; reflexivity|].
  repeat (split; [reflexivity|]).
  split; [world; now rewrite <- app_assoc|].
  split; [reflexivity|].
  exact (calendar_date startDate).
Qed.

Lemma create_effect_witness :
  let w := mkWorld [corolla 1 ICar.available] [] [] 10 [] [] [] in
  let w' := snd (post_reservation 7 1 (jan 1 + 3600000)%Z (jan 5) 200 w) in
  reservations w'
  = [IReservation.mk 10 1 7 (jan 1 + 3600000)%Z (jan 5) IReservation.pending 200]
  /\ statistics w' = [IStatistics.mk 11 (jan 1) 200 IStatistics.pending 10]
  /\ cars w' = [corolla 1 ICar.available].
Proof.
  pose proof (create_effect 7 1 (jan 1 + 3600000)%Z (jan 5) 200
                (mkWorld [corolla 1 ICar.available] [] [] 10 [] [] [])
                (corolla 1 ICar.available) eq_refl eq_refl) as H.
  cbv zeta in H. destruct H as (_ & Hr & Hs & Hc & _).
  cbv zeta. rewrite Hr, Hs, Hc. repeat split.
Defined.

(** * Reject *)

Lemma reject_missing id w :
  faults w = [] ->
  find (byId IReservation._id id) (reservations w) = None ->
  patch_reject id w = (respond 404 (JsonError "Reservation not found"), w).
Proof.
  intros Hq Hr. unfold patch_reject, handler, bind, Reservation.findById.
  rewrite await_quiet by assumption. now rewrite Hr.
Qed.

Lemma reject_refused id w r :
  faults w = [] ->
  find (byId IReservation._id id) (reservations w) = Some r ->
  IReservation.status r <> IReservation.pending ->
  patch_reject id w
  = (respond 400 (JsonError "Only pending reservations can be rejected"), w).
Proof.
  intros Hq Hr Hs. unfold patch_reject, handler, bind, Reservation.findById.
  rewrite await_quiet by assumption. rewrite Hr.
  destruct (IReservation.status r); cbn; congruence.
Qed.

Lemma reject_run id w r :
  faults w = [] ->
  find (byId IReservation._id id) (reservations w) = Some r ->
  IReservation.status r = IReservation.pending ->
  patch_reject id w
  = (if existsb (byReservationId id) (statistics w)
     then respond 200
            (JsonReservation "Reservation rejected successfully"
               (IReservation.set_status IReservation.cancelled r))
     else respond 404 (JsonError "No statistics found for this reservation"),
     rejected id w r).
Proof.
  intros Hq Hr Hs.
  assert (Hid : IReservation._id r = id)
    by (eapply find_byId_key; eassumption).
  pose proof (find_byId_existsb _ _ _ _ Hr) as Hex.
  unfold patch_reject, handler, bind, Reservation.findById.
  rewrite await_quiet by assumption. rewrite Hr, Hs. cbn [negb
    IReservation.status_eqb].
  unfold Reservation.save. rewrite await_quiet by assumption.
  cbn [IReservation._id IReservation.set_status]. rewrite Hid, Hex.
  unfold Reservation.deleteOne. rewrite await_quiet by assumption. world.
  unfold Statistics.deleteOne. rewrite await_quiet
    by (destruct (deletedId _ _ _); assumption).
  unfold rejected.
  assert (Hdel : deletedId IReservation._id (byId IReservation._id id)
                   (updateOne IReservation._id
                      (IReservation.set_status IReservation.cancelled r)
                      (reservations w)) = Some id).
  { unfold deletedId.
    pose proof (find_updateOne_same IReservation._id
                  (IReservation.set_status IReservation.cancelled r)
                  (reservations w)) as F.
    cbn [IReservation._id IReservation.set_status] in F.
    rewrite Hid in F. rewrite (F Hex). cbn. now rewrite Hid. }
  rewrite Hdel. world. unfold deletedCount, deletedId.
  destruct (find (byReservationId id) (statistics w)) as [s|] eqn:Fs.
  - rewrite (find_existsb _ _ _ Fs). reflexivity.
  - rewrite (find_none_existsb _ _ Fs). reflexivity.
Qed.

(** Reject never writes to the cars, whatever the store does. *)
Lemma reject_keeps_cars id w : cars (snd (patch_reject id w)) = cars w.
Proof.
  assert (Hf : forall fs w0, cars (with_faults fs w0) = cars w0)
    by reflexivity.
  unfold patch_reject. apply (keeps_handler cars).
  apply keeps_bind; [apply (keeps_await cars Hf); reflexivity|].
  intros [r|]; [|apply keeps_ret].
  destruct (negb _); [apply keeps_ret|].
  apply keeps_bind.
  { apply (keeps_await cars Hf). intros w0. now destruct (existsb _ _). }
  intros _. apply keeps_bind.
  { apply (keeps_await cars Hf). intros w0. cbn [snd].
    now destruct (deletedId _ _ _). }
  intros _. apply keeps_bind.
  { apply (keeps_await cars Hf). intros w0. cbn [snd].
    now destruct (deletedId _ _ _). }
  intros n. destruct (n =? 0); apply keeps_ret.
Qed.

Lemma NoDup_key_split {D} (key : D -> ObjectId) l1 s l2 :
  NoDup (map key (l1 ++ s :: l2)) ->
  find (byId key (key s)) (l1 ++ l2) = None.
Proof.
  rewrite map_app. cbn [map]. intros H. apply NoDup_remove_2 in H.
  destruct (find (byId key (key s)) (l1 ++ l2)) as [x|] eqn:F; [|reflexivity].
  exfalso. apply H. rewrite <- map_app. apply existsb_In_key.
  eapply find_byId_existsb; eassumption.
Qed.

(** C8. Rejecting a pending reservation that has a linked statistics
    record answers 200, removes the reservation and that statistics record
    from the store, leaves every other reservation and all cars as they
    were, and a second rejection of the same reservation answers 404
    (NotFound). *)
Theorem reject_effect id w r s :
  faults w = [] ->
  NoDup (map IReservation._id (reservations w)) ->
  NoDup (map IStatistics._id (statistics w)) ->
  find (byId IReservation._id id) (reservations w) = Some r ->
  IReservation.status r = IReservation.pending ->
  find (byReservationId id) (statistics w) = Some s ->
  let w' := snd (patch_reject id w) in
  Succeeded (fst (patch_reject id w))
  /\ find (byId IReservation._id id) (reservations w') = None
  /\ (forall i, i <> id ->
        find (byId IReservation._id i) (reservations w')
        = find (byId IReservation._id i) (reservations w))
  /\ (exists l1 l2,
        statistics w = l1 ++ s :: l2 /\ statistics w' = l1 ++ l2)
  /\ find (byId IStatistics._id (IStatistics._id s)) (statistics w') = None
  /\ cars w' = cars w
  /\ NotFound (fst (patch_reject id w')).
Proof.
  intros Hq Hnr Hns Hr Hs Fs w'.
  assert (Hcars : cars w' = cars w) by apply reject_keeps_cars.
  subst w'. revert Hcars.
  rewrite (reject_run id w r Hq Hr Hs). cbn [fst snd].
  rewrite (find_existsb _ _ _ Fs). intros Hcars.
  assert (Hid : IReservation._id r = id)
    by (eapply find_byId_key; eassumption).
  destruct (deleteOne_split _ _ _ Fs) as (l1 & l2 & E1 & E2 & _).
  assert (Hres : reservations (rejected id w r)
                 = deleteOne (byId IReservation._id id)
                     (updateOne IReservation._id
                        (IReservation.set_status IReservation.cancelled r)
                        (reservations w))).
  { unfold rejected, deletedId. rewrite Fs. reflexivity. }
  assert (Hst : statistics (rejected id w r) = l1 ++ l2).
  { unfold rejected, deletedId. rewrite Fs. cbn [option_map]. world.
    exact E2. }
  assert (Hgone : find (byId IReservation._id id)
                    (reservations (rejected id w r)) = None).
  { rewrite Hres. apply find_deleteOne_byId.
    now rewrite map_key_updateOne. }
  split; [reflexivity|]. split; [exact Hgone|]. split; [|split; [|split; [|split]]].
  - intros i Hi. rewrite Hres.
    rewrite find_deleteOne_other
      by (intros x Hx; apply byId_true in Hx; congruence).
    apply find_updateOne_other. cbn [IReservation._id IReservation.set_status].
    congruence.
  - exists l1, l2. split; assumption.
  - rewrite Hst. apply NoDup_key_split. now rewrite <- E1.
  - exact Hcars.
  - rewrite reject_missing; [reflexivity | | exact Hgone].
    unfold rejected. destruct (deletedId _ _ _); world; assumption.
Qed.

Lemma reject_effect_witness :
  let w := store ICar.available IReservation.pending in
  let s := shadow 11 10 IStatistics.pending in
  let w' := snd (patch_reject 10 w) in
  Succeeded (fst (patch_reject 10 w))
  /\ find (byId IReservation._id 10) (reservations w') = None
  /\ (forall i, i <> 10 ->
        find (byId IReservation._id i) (reservations w')
        = find (byId IReservation._id i) (reservations w))
  /\ (exists l1 l2,
        statistics w = l1 ++ s :: l2 /\ statistics w' = l1 ++ l2)
  /\ find (byId IStatistics._id (IStatistics._id s)) (statistics w') = None
  /\ cars w' = cars w
  /\ NotFound (fst (patch_reject 10 w')).
Proof.
  apply (reject_effect 10 (store ICar.available IReservation.pending)
           (booking 10 1 IReservation.pending)
           (shadow 11 10 IStatistics.pending));
    try reflexivity; cbn; (constructor; [intros [] | constructor]).
Defined.

(** C9, as the handler has it. Rejection answers 404 (NotFound) in exactly
    two cases: no reservation has the [_id], or the reservation is pending
    and no statistics record carries its [_id]; in the second case the
    answer names the missing statistics.  A reservation that exists and is
    not pending is answered 400 (InvalidState), and nothing is written. *)
Theorem reject_failures id w :
  faults w = [] ->
  (NotFound (fst (patch_reject id w)) <->
   find (byId IReservation._id id) (reservations w) = None
   \/ exists r,
        find (byId IReservation._id id) (reservations w) = Some r
        /\ IReservation.status r = IReservation.pending
        /\ find (byReservationId id) (statistics w) = None)
  /\ (forall r,
        find (byId IReservation._id id) (reservations w) = Some r ->
        IReservation.status r = IReservation.pending ->
        find (byReservationId id) (statistics w) = None ->
        fst (patch_reject id w)
        = respond 404 (JsonError "No statistics found for this reservation"))
  /\ (forall r,
        find (byId IReservation._id id) (reservations w) = Some r ->
        IReservation.status r <> IReservation.pending ->
        InvalidState (fst (patch_reject id w))
        /\ snd (patch_reject id w) = w).
Proof.
  intros Hq. split; [|split].
  - destruct (find (byId IReservation._id id) (reservations w)) as [r|] eqn:Hr.
    + destruct (IReservation.status r) eqn:Hs.
      * rewrite (reject_run id w r Hq Hr Hs). cbn [fst].
        destruct (find (byReservationId id) (statistics w)) as [s|] eqn:Fs.
        -- rewrite (find_existsb _ _ _ Fs). split; [discriminate|].
           intros [H | (r0 & _ & _ & H)]; discriminate H.
        -- rewrite (find_none_existsb _ _ Fs). split; [|reflexivity].
           intros _. right. exists r. now repeat split.
      * rewrite (reject_refused id w r Hq Hr) by congruence.
        split; [discriminate|].
        intros [H | (r0 & H & H' & _)]; [discriminate | congruence].
      * rewrite (reject_refused id w r Hq Hr) by congruence.
        split; [discriminate|].
        intros [H | (r0 & H & H' & _)]; [discriminate | congruence].
      * rewrite (reject_refused id w r Hq Hr) by congruence.
        split; [discriminate|].
        intros [H | (r0 & H & H' & _)]; [discriminate | congruence].
    + rewrite (reject_missing id w Hq Hr). split; [now left | reflexivity].
  - intros r Hr Hs Fs. rewrite (reject_run id w r Hq Hr Hs). cbn [fst].
    now rewrite (find_none_existsb _ _ Fs).
  - intros r Hr Hs. rewrite (reject_refused id w r Hq Hr Hs). now split.
Qed.

Lemma reject_failures_witness :
  let w := store ICar.reserved IReservation.confirmed in
  InvalidState (fst (patch_reject 10 w)) /\ snd (patch_reject 10 w) = w.
Proof.
  apply (reject_failures 10 (store ICar.reserved IReservation.confirmed)
           eq_refl)
    with (r := booking 10 1 IReservation.confirmed).
  - reflexivity.
  - discriminate.
Defined.

(** C9, as stated, fails: a reservation that exists and is confirmed is
    rejected with status 400, not with 404. *)
Lemma reject_not_pending_counterexample :
  let w := store ICar.reserved IReservation.confirmed in
  find (byId IReservation._id 10) (reservations w)
  = Some (booking 10 1 IReservation.confirmed)
  /\ IReservation.status (booking 10 1 IReservation.confirmed)
     <> IReservation.pending
  /\ faults w = []
  /\ code (fst (patch_reject 10 w)) = 400
  /\ ~ NotFound (fst (patch_reject 10 w)).
Proof.
  cbv zeta. repeat split; try reflexivity; discriminate.
Qed.

(** C10. Rejecting a pending reservation that has no linked statistics
    record answers 404 only after the reservation has been removed: the
    store the failure leaves no longer holds the reservation, its
    reservations are one fewer, and the journal shows the update and the
    deletion; the world is not the one the request found. *)
Theorem reject_orphan_not_atomic id w r :
  faults w = [] ->
  NoDup (map IReservation._id (reservations w)) ->
  find (byId IReservation._id id) (reservations w) = Some r ->
  IReservation.status r = IReservation.pending ->
  find (byReservationId id) (statistics w) = None ->
  let w' := snd (patch_reject id w) in
  NotFound (fst (patch_reject id w))
  /\ body (fst (patch_reject id w))
     = JsonError "No statistics found for this reservation"
  /\ find (byId IReservation._id id) (reservations w') = None
  /\ length (reservations w') + 1 = length (reservations w)
  /\ writes w' = writes w ++ [Updated Reservations id; Deleted Reservations id]
  /\ w' <> w.
Proof.
  intros Hq Hnr Hr Hs Fs w'. subst w'.
  rewrite (reject_run id w r Hq Hr Hs). cbn [fst snd].
  rewrite (find_none_existsb _ _ Fs). cbn [body].
  pose proof (find_byId_existsb _ _ _ _ Hr) as Hex.
  assert (Hid : IReservation._id r = id)
    by (eapply find_byId_key; eassumption).
  assert (Hres : reservations (rejected id w r)
                 = deleteOne (byId IReservation._id id)
                     (updateOne IReservation._id
                        (IReservation.set_status IReservation.cancelled r)
                        (reservations w))).
  { unfold rejected, deletedId. rewrite Fs. reflexivity. }
  assert (Hgone : find (byId IReservation._id id)
                    (reservations (rejected id w r)) = None).
  { rewrite Hres. apply find_deleteOne_byId. now rewrite map_key_updateOne. }
  split; [reflexivity|]. split; [reflexivity|]. split; [exact Hgone|].
  split; [|split].
  - rewrite Hres.
    pose proof (length_deleteOne (byId IReservation._id id)
                  (updateOne IReservation._id
                     (IReservation.set_status IReservation.cancelled r)
                     (reservations w))) as L.
    unfold deletedCount in L.
    assert (Hex' : existsb (byId IReservation._id id)
                     (updateOne IReservation._id
                        (IReservation.set_status IReservation.cancelled r)
                        (reservations w)) = true).
    { apply existsb_In_key. rewrite map_key_updateOne.
      apply existsb_In_key. eapply find_byId_existsb; eassumption. }
    rewrite Hex' in L. rewrite length_updateOne in L. exact L.
  - unfold rejected, deletedId. rewrite Fs. cbn [option_map]. world.
    now rewrite <- app_assoc.
  - intros E. rewrite E in Hgone. congruence.
Qed.

Lemma reject_orphan_not_atomic_witness :
  let w := mkWorld [corolla 1 ICar.available]
                   [booking 10 1 IReservation.pending] [] 11 [] [] [] in
  let w' := snd (patch_reject 10 w) in
  NotFound (fst (patch_reject 10 w))
  /\ body (fst (patch_reject 10 w))
     = JsonError "No statistics found for this reservation"
  /\ find (byId IReservation._id 10) (reservations w') = None
  /\ length (reservations w') + 1 = length (reservations w)
  /\ writes w' = writes w ++ [Updated Reservations 10; Deleted Reservations 10]
  /\ w' <> w.
Proof.
  apply (reject_orphan_not_atomic 10
           (mkWorld [corolla 1 ICar.available]
                    [booking 10 1 IReservation.pending] [] 11 [] [] [])
           (booking 10 1 IReservation.pending));
    try reflexivity.
  cbn. constructor; [intros [] | constructor].
Defined.

(** * The reconciliation pass *)

Lemma NoDup_key_inj {D} (key : D -> ObjectId) l a b :
  NoDup (map key l) -> In a l -> In b l -> key a = key b -> a = b.
Proof.
  induction l as [|x xs IH]; cbn; [tauto|].
  intros Hnd Ha Hb E. inversion Hnd as [|k ks Hnotin Hnd']; subst.
  destruct Ha as [<-|Ha], Hb as [<-|Hb]; try reflexivity.
  - exfalso. apply Hnotin. rewrite E. now apply in_map.
  - exfalso. apply Hnotin. rewrite <- E. now apply in_map.
  - now apply IH.
Qed.

Lemma NoDup_map_filter {D} (key : D -> ObjectId) (q : D -> bool) l :
  NoDup (map key l) -> NoDup (map key (filter q l)).
Proof.
  induction l as [|x xs IH]; cbn; [trivial|].
  intros Hnd. inversion Hnd as [|k ks Hnotin Hnd']; subst.
  destruct (q x); cbn; [|now apply IH].
  constructor; [|now apply IH].
  intros Hin. apply Hnotin. apply in_map_iff in Hin.
  destruct Hin as [y [Ey Hy]]. apply filter_In in Hy. rewrite <- Ey.
  apply in_map. tauto.
Qed.

Lemma length_filter_map {D} (q : D -> bool) (g : D -> D) l :
  (forall y, q (g y) = q y) ->
  length (filter q (map g l)) = length (filter q l).
Proof.
  intros Hg. induction l as [|x xs IH]; cbn; [reflexivity|].
  rewrite Hg. destruct (q x); cbn; now rewrite IH.
Qed.

Lemma completing_id ids y :
  IReservation._id (completing ids y) = IReservation._id y.
Proof. unfold completing. now destruct (existsb _ _). Qed.

Lemma completing_cons i ids y :
  completing ids (completing [i] y) = completing (i :: ids) y.
Proof.
  unfold completing. cbn [existsb]. rewrite orb_false_r.
  destruct (IReservation._id y =? i) eqn:E; cbn [orb].
  - now destruct (existsb _ _).
  - reflexivity.
Qed.

Lemma overlapping_completing car now ids y :
  overlapping car now (completing ids y) = overlapping car now y.
Proof. unfold completing. now destruct (existsb _ _). Qed.

Lemma idle_completing now car ids rs :
  idle now car (map (completing ids) rs) = idle now car rs.
Proof.
  unfold idle. rewrite length_filter_map; [reflexivity|].
  intros y. apply overlapping_completing.
Qed.

(** ** One turn of the loop *)

Lemma release_car_reservations now r w :
  reservations (release_car now r w) = reservations w.
Proof.
  unfold release_car. destruct (find _ (cars w)); [|reflexivity].
  now destruct (_ =? 0).
Qed.

Lemma release_car_faults now r w :
  faults (release_car now r w) = faults w.
Proof.
  unfold release_car. destruct (find _ (cars w)); [|reflexivity].
  now destruct (_ =? 0).
Qed.

Lemma swept_one_reservations now r w :
  reservations (swept_one now r w)
  = updateOne IReservation._id
      (IReservation.set_status IReservation.completed r) (reservations w).
Proof.
  unfold swept_one, complete. world. now rewrite release_car_reservations.
Qed.

Lemma swept_one_faults now r w : faults (swept_one now r w) = faults w.
Proof. unfold swept_one, complete. world. apply release_car_faults. Qed.

Lemma swept_one_cars now r w :
  cars (swept_one now r w) = cars (release_car now r w).
Proof. reflexivity. Qed.

Lemma swept_one_statistics now r w :
  statistics (swept_one now r w) = statistics w.
Proof.
  unfold swept_one, complete, release_car. world.
  destruct (find _ (cars w)); [|reflexivity]. now destruct (_ =? 0).
Qed.

(** In a quiet world a turn on a reservation of the store returns, and
    leaves [swept_one]. *)
Lemma sweep_one_quiet now r w :
  faults w = [] ->
  existsb (byId IReservation._id (IReservation._id r)) (reservations w) = true ->
  sweep_one now r w = (Returned tt, swept_one now r w).
Proof.
  intros Hq Hex. unfold sweep_one, bind, Car.findById.
  rewrite await_quiet by assumption.
  unfold swept_one, release_car.
  destruct (find (byId ICar._id (IReservation.carId r)) (cars w))
    as [c|] eqn:Fc.
  - unfold Reservation.find. rewrite await_quiet by assumption.
    destruct (length (filter (overlapping (ICar._id c) now) (reservations w))
              =? 0) eqn:El.
    + unfold Car.save. rewrite await_quiet by assumption.
      cbn [ICar._id ICar.set_status].
      assert (Hc : existsb (byId ICar._id (ICar._id c)) (cars w) = true).
      { apply existsb_exists. exists c. apply find_some in Fc.
        split; [tauto | now apply byId_true]. }
      rewrite Hc. unfold Reservation.save. rewrite await_quiet by assumption.
      world. cbn [IReservation._id IReservation.set_status]. now rewrite Hex.
    + unfold ret, Reservation.save. rewrite await_quiet by assumption.
      cbn [IReservation._id IReservation.set_status]. now rewrite Hex.
  - unfold ret, Reservation.save. rewrite await_quiet by assumption.
    cbn [IReservation._id IReservation.set_status]. now rewrite Hex.
Qed.

(** A turn on a document of the store completes that document and no
    other. *)
Lemma swept_one_completing now x w :
  NoDup (map IReservation._id (reservations w)) ->
  In x (reservations w) ->
  reservations (swept_one now x w)
  = map (completing [IReservation._id x]) (reservations w).
Proof.
  intros Hnd Hin. rewrite swept_one_reservations, updateOne_map by assumption.
  apply map_ext_in. intros y Hy. unfold completing, byId. cbn [existsb].
  cbn [IReservation._id IReservation.set_status]. rewrite orb_false_r.
  destruct (IReservation._id y =? IReservation._id x) eqn:E; [|reflexivity].
  apply Nat.eqb_eq in E.
  now rewrite (NoDup_key_inj IReservation._id _ y x Hnd Hy Hin E).
Qed.

Lemma batch_step now x l w :
  batch (x :: l) w -> batch l (swept_one now x w).
Proof.
  intros (Hnd & Hincl & Hl).
  assert (Hx : In x (reservations w)) by (apply Hincl; now left).
  inversion Hl as [|k ks Hnotin Hl']; subst.
  unfold batch.
  rewrite swept_one_completing by assumption.
  split; [|split; [|assumption]].
  - rewrite map_map. erewrite map_ext; [exact Hnd|].
    intros y. apply completing_id.
  - intros y Hy. apply in_map_iff. exists y. split; [|apply Hincl; now right].
    unfold completing. cbn [existsb]. rewrite orb_false_r.
    destruct (IReservation._id y =? IReservation._id x) eqn:E; [|reflexivity].
    apply Nat.eqb_eq in E. exfalso. apply Hnotin. rewrite <- E.
    now apply in_map.
Qed.

Lemma batch_present x l w :
  batch (x :: l) w ->
  existsb (byId IReservation._id (IReservation._id x)) (reservations w) = true.
Proof.
  intros (_ & Hincl & _). apply existsb_In_key. apply in_map.
  apply Hincl. now left.
Qed.

Lemma batch_ended now w :
  NoDup (map IReservation._id (reservations w)) ->
  batch (filter (ended now) (reservations w)) w.
Proof.
  intros Hnd. split; [assumption|]. split.
  - intros y Hy. apply filter_In in Hy. tauto.
  - now apply NoDup_map_filter.
Qed.

(** ** The whole loop *)

Lemma swept_faults now l w : faults (swept now l w) = faults w.
Proof.
  revert w. induction l as [|x l IH]; intros w; cbn; [reflexivity|].
  fold (swept now l (swept_one now x w)). rewrite IH.
  apply swept_one_faults.
Qed.

Lemma swept_statistics now l w : statistics (swept now l w) = statistics w.
Proof.
  revert w. induction l as [|x l IH]; intros w; cbn; [reflexivity|].
  fold (swept now l (swept_one now x w)). rewrite IH.
  apply swept_one_statistics.
Qed.

(** In a quiet world the loop runs to its end. *)
Lemma forEach_quiet now l w :
  faults w = [] -> batch l w ->
  forEach l (sweep_one now) w = (Returned tt, swept now l w).
Proof.
  revert w. induction l as [|x l IH]; intros w Hq Hb; [reflexivity|].
  cbn [forEach]. unfold bind.
  rewrite sweep_one_quiet by (try assumption; eapply batch_present; eassumption).
  apply IH.
  - now rewrite swept_one_faults.
  - now apply batch_step.
Qed.

Lemma sweep_quiet now w :
  faults w = [] ->
  NoDup (map IReservation._id (reservations w)) ->
  sweep now w
  = (Returned tt, swept now (filter (ended now) (reservations w)) w).
Proof.
  intros Hq Hnd. unfold sweep, bind, Reservation.find.
  rewrite await_quiet by assumption.
  apply forEach_quiet; [assumption | now apply batch_ended].
Qed.

(** The loop completes the documents of its batch and no other. *)
Lemma swept_reservations now l w :
  batch l w ->
  reservations (swept now l w)
  = map (completing (map IReservation._id l)) (reservations w).
Proof.
  revert w. induction l as [|x l IH]; intros w Hb.
  - cbn. rewrite <- (map_id (reservations w)) at 1. reflexivity.
  - cbn [swept fold_left map]. fold (swept now l (swept_one now x w)).
    rewrite IH by (now apply batch_step).
    destruct Hb as (Hnd & Hincl & _).
    rewrite swept_one_completing by (try assumption; apply Hincl; now left).
    rewrite map_map. apply map_ext. intros y. apply completing_cons.
Qed.

Lemma release_car_find now x w cid :
  find (byId ICar._id cid) (cars (release_car now x w))
  = if (IReservation.carId x =? cid) && idle now cid (reservations w)
    then option_map (ICar.set_status ICar.available)
           (find (byId ICar._id cid) (cars w))
    else find (byId ICar._id cid) (cars w).
Proof.
  unfold release_car, idle.
  destruct (find (byId ICar._id (IReservation.carId x)) (cars w))
    as [c|] eqn:Fc.
  - pose proof (find_byId_key _ _ _ _ Fc) as Hc.
    pose proof (find_byId_existsb _ _ _ _ Fc) as Hex.
    rewrite Hc.
    destruct (IReservation.carId x =? cid) eqn:E; cbn [andb].
    + apply Nat.eqb_eq in E. rewrite E in *. rewrite Fc.
      destruct (length _ =? 0); [|exact Fc]. world. cbn [option_map].
      rewrite <- Hc at 1.
      change (ICar._id c)
        with (ICar._id (ICar.set_status ICar.available c)) at 1.
      apply find_updateOne_same. cbn [ICar._id ICar.set_status].
      now rewrite Hc.
    + apply Nat.eqb_neq in E.
      destruct (length _ =? 0); [|reflexivity]. world.
      apply find_updateOne_other. cbn [ICar._id ICar.set_status]. congruence.
  - destruct (IReservation.carId x =? cid) eqn:E; cbn [andb]; [|reflexivity].
    apply Nat.eqb_eq in E. rewrite E in Fc. rewrite Fc.
    now destruct (length _ =? 0).
Qed.

(** The loop makes available the cars of its batch that are idle at
    [now], and touches no other car. *)
Lemma swept_cars_find now l w cid :
  batch l w ->
  find (byId ICar._id cid) (cars (swept now l w))
  = if existsb (fun x => IReservation.carId x =? cid) l
       && idle now cid (reservations w)
    then option_map (ICar.set_status ICar.available)
           (find (byId ICar._id cid) (cars w))
    else find (byId ICar._id cid) (cars w).
Proof.
  revert w. induction l as [|x l IH]; intros w Hb; [reflexivity|].
  cbn [swept fold_left existsb]. fold (swept now l (swept_one now x w)).
  rewrite IH by (now apply batch_step).
  destruct Hb as (Hnd & Hincl & _).
  rewrite swept_one_completing by (try assumption; apply Hincl; now left).
  rewrite idle_completing, swept_one_cars, release_car_find.
  destruct (IReservation.carId x =? cid),
    (existsb (fun x0 => IReservation.carId x0 =? cid) l),
    (idle now cid (reservations w)); cbn [andb orb]; try reflexivity.
  now destruct (find (byId ICar._id cid) (cars w)).
Qed.

Lemma cronJob_quiet now w :
  faults w = [] ->
  NoDup (map IReservation._id (reservations w)) ->
  cronJob now w = swept now (filter (ended now) (reservations w)) w.
Proof. intros Hq Hnd. unfold cronJob. now rewrite sweep_quiet. Qed.

Lemma find_byId_In {D} (key : D -> ObjectId) l r :
  NoDup (map key l) -> In r l -> find (byId key (key r)) l = Some r.
Proof.
  intros Hnd Hin.
  destruct (find (byId key (key r)) l) as [x|] eqn:F.
  - f_equal. apply find_some in F. destruct F as [Hx Hk].
    apply byId_true in Hk. now apply (NoDup_key_inj key l x r).
  - exfalso. apply (find_none _ _ F) in Hin. unfold byId in Hin.
    now rewrite Nat.eqb_refl in Hin.
Qed.

Lemma ended_true now r :
  IReservation.status r = IReservation.confirmed ->
  (IReservation.endDate r < now)%Z ->
  ended now r = true.
Proof.
  intros Hs He. unfold ended. rewrite Hs. cbn.
  rewrite andb_true_r. now apply Z.ltb_lt.
Qed.

Lemma idle_true now car rs :
  idle now car rs = true <-> filter (overlapping car now) rs = [].
Proof.
  unfold idle. rewrite Nat.eqb_eq. apply length_zero_iff_nil.
Qed.

(** C4. After one reconciliation pass at time [now] (the store not
    failing), every reservation that was confirmed with an end before
    [now] is completed, its other fields as they were; whether its car
    exists plays no role.  The pass runs to its end. *)
Theorem sweep_completes now w r :
  faults w = [] ->
  NoDup (map IReservation._id (reservations w)) ->
  In r (reservations w) ->
  IReservation.status r = IReservation.confirmed ->
  (IReservation.endDate r < now)%Z ->
  let w' := cronJob now w in
  sweep now w = (Returned tt, w')
  /\ find (byId IReservation._id (IReservation._id r)) (reservations w')
     = Some (IReservation.set_status IReservation.completed r).
Proof.
  intros Hq Hnd Hin Hs He w'. subst w'.
  rewrite cronJob_quiet by assumption. split; [now apply sweep_quiet|].
  rewrite swept_reservations by (now apply batch_ended).
  rewrite find_map_key by (intros x; apply completing_id).
  rewrite find_byId_In by assumption. cbn [option_map]. f_equal.
  unfold completing.
  assert (Hex : existsb (Nat.eqb (IReservation._id r))
                  (map IReservation._id (filter (ended now) (reservations w)))
                = true).
  { apply existsb_exists. exists (IReservation._id r).
    split; [|apply Nat.eqb_refl].
    apply in_map. apply filter_In. split; [assumption|].
    now apply ended_true. }
  now rewrite Hex.
Qed.

Lemma sweep_completes_witness :
  let w' := cronJob (jan 6) orphaned in
  sweep (jan 6) orphaned = (Returned tt, w')
  /\ find (byId IReservation._id 10) (reservations w')
     = Some (booking 10 1 IReservation.completed).
Proof.
  apply (sweep_completes (jan 6) orphaned (booking 10 1 IReservation.confirmed)).
  - reflexivity.
  - cbn. constructor; [intros [] | constructor].
  - now left.
  - reflexivity.
  - reflexivity.
Defined.

(** C5. For a confirmed reservation with an end before [now] whose car
    exists, one reconciliation pass at [now] (the store not failing) makes
    the car available when no reservation on that car, of whatever status,
    has [startDate <= now <= endDate]; when some reservation has, the pass
    leaves the car as it was. *)
Theorem sweep_releases now w r c :
  faults w = [] ->
  NoDup (map IReservation._id (reservations w)) ->
  In r (reservations w) ->
  IReservation.status r = IReservation.confirmed ->
  (IReservation.endDate r < now)%Z ->
  find (byId ICar._id (IReservation.carId r)) (cars w) = Some c ->
  let w' := cronJob now w in
  (filter (overlapping (IReservation.carId r) now) (reservations w) = [] ->
   find (byId ICar._id (IReservation.carId r)) (cars w')
   = Some (ICar.set_status ICar.available c))
  /\ (filter (overlapping (IReservation.carId r) now) (reservations w) <> [] ->
      find (byId ICar._id (IReservation.carId r)) (cars w') = Some c).
Proof.
  intros Hq Hnd Hin Hs He Hc w'. subst w'.
  rewrite cronJob_quiet by assumption.
  rewrite swept_cars_find by (now apply batch_ended). rewrite Hc.
  assert (Hex : existsb
                  (fun x => IReservation.carId x =? IReservation.carId r)
                  (filter (ended now) (reservations w)) = true).
  { apply existsb_exists. exists r. split; [|apply Nat.eqb_refl].
    apply filter_In. split; [assumption | now apply ended_true]. }
  rewrite Hex. cbn [andb]. split; intros Ho.
  - apply idle_true in Ho. now rewrite Ho.
  - destruct (idle now (IReservation.carId r) (reservations w)) eqn:Ei;
      [|reflexivity].
    apply idle_true in Ei. contradiction.
Qed.

Lemma sweep_releases_witness :
  let w' := cronJob (jan 6) fleet in
  find (byId ICar._id 1) (cars w') = Some (corolla 1 ICar.available)
  /\ find (byId ICar._id 2) (cars w') = Some (corolla 2 ICar.reserved).
Proof.
  assert (Hnd : NoDup (map IReservation._id (reservations fleet))).
  { cbn. repeat constructor; cbn; intuition discriminate. }
  split.
  - apply (sweep_releases (jan 6) fleet (booking 10 1 IReservation.confirmed)
             (corolla 1 ICar.reserved)); try reflexivity.
    + exact Hnd.
    + now left.
  - apply (sweep_releases (jan 6) fleet (booking 20 2 IReservation.confirmed)
             (corolla 2 ICar.reserved)); try reflexivity.
    + exact Hnd.
    + right. now left.
    + discriminate.
Defined.

(** ** Runs that return, whatever the failure schedule *)

Lemma erasable_ret {A} (a : A) : erasable (ret a).
Proof. intros w a' w' [= <- <-]. reflexivity. Qed.

Lemma erasable_bind {A B} (m : Async A) (k : A -> Async B) :
  erasable m -> (forall a, erasable (k a)) -> erasable (bind m k).
Proof.
  intros Hm Hk w b w'. unfold bind.
  destruct (m w) as [[a|e] w1] eqn:E; [|discriminate].
  intros Hka. rewrite (Hm _ _ _ E). now apply Hk.
Qed.

Lemma erasable_await {A} (op : World -> Outcome A * World) :
  blind op -> erasable (await op).
Proof.
  intros Hop w a w'. unfold await at 1.
  destruct (faults w) as [|[m|] fs] eqn:F.
  - intros E. rewrite await_quiet by reflexivity.
    rewrite Hop, E. reflexivity.
  - discriminate.
  - rewrite Hop. intros [= E1 E2]. rewrite await_quiet by reflexivity.
    rewrite Hop, E1, <- E2. reflexivity.
Qed.

Lemma erasable_forEach {A} (xs : list A) (body : A -> Async unit) :
  (forall x, erasable (body x)) -> erasable (forEach xs body).
Proof.
  intros Hb. induction xs as [|x xs IH]; cbn [forEach].
  - apply erasable_ret.
  - apply erasable_bind; [apply Hb | intros _; exact IH].
Qed.

Lemma erasable_sweep_one now r : erasable (sweep_one now r).
Proof.
  unfold sweep_one. apply erasable_bind.
  - apply erasable_await. intros fs w. reflexivity.
  - intros car. apply erasable_bind.
    + destruct car as [c|]; [|apply erasable_ret].
      apply erasable_bind.
      * apply erasable_await. intros fs w. reflexivity.
      * intros l. destruct (length l =? 0); [|apply erasable_ret].
        apply erasable_await. intros fs w. world.
        now destruct (existsb _ _).
    + intros _. apply erasable_await. intros fs w. world.
      now destruct (existsb _ _).
Qed.

Lemma erasable_sweep now : erasable (sweep now).
Proof.
  unfold sweep. apply erasable_bind.
  - apply erasable_await. intros fs w. reflexivity.
  - intros l. apply erasable_forEach. intros r. apply erasable_sweep_one.
Qed.

(** A pass that selects nothing writes nothing, whatever the store does. *)
Lemma cronJob_nothing_ended now w :
  filter (ended now) (reservations w) = [] ->
  writes (cronJob now w) = writes w
  /\ reservations (cronJob now w) = reservations w
  /\ cars (cronJob now w) = cars w
  /\ statistics (cronJob now w) = statistics w.
Proof.
  intros Hn. unfold cronJob, sweep, bind, Reservation.find, await.
  destruct (faults w) as [|[m|] fs]; world; try rewrite Hn; cbn;
    repeat split; reflexivity.
Qed.

(** C6. When a reconciliation pass has run to its end, the store holds no
    confirmed reservation with an end before [now]; a second pass at the
    same [now] on the world the first one left selects nothing and writes
    nothing: the journal of writes, the reservations, the cars and the
    statistics are as the first pass left them. *)
Theorem sweep_idempotent now w w1 :
  NoDup (map IReservation._id (reservations w)) ->
  sweep now w = (Returned tt, w1) ->
  let w2 := cronJob now w1 in
  cronJob now w = w1
  /\ filter (ended now) (reservations w1) = []
  /\ writes w2 = writes w1
  /\ reservations w2 = reservations w1
  /\ cars w2 = cars w1
  /\ statistics w2 = statistics w1.
Proof.
  intros Hnd Hrun w2. subst w2.
  assert (Hnone : filter (ended now) (reservations w1) = []).
  { pose proof (erasable_sweep now w tt w1 Hrun) as E.
    rewrite sweep_quiet in E by (try reflexivity; exact Hnd).
    injection E as E.
    change (reservations w1) with (reservations (with_faults [] w1)).
    rewrite <- E.
    rewrite swept_reservations
      by (apply (batch_ended now (with_faults [] w)); exact Hnd).
    change (reservations (with_faults [] w)) with (reservations w).
    set (ids := map IReservation._id (filter (ended now) (reservations w))).
    destruct (filter (ended now) (map (completing ids) (reservations w)))
      as [|z zs] eqn:F; [reflexivity|].
    exfalso.
    assert (Hz : In z (filter (ended now)
                         (map (completing ids) (reservations w))))
      by (rewrite F; now left).
    apply filter_In in Hz. destruct Hz as [Hz Hended].
    apply in_map_iff in Hz. destruct Hz as [y [<- Hy]].
    unfold completing in Hended.
    destruct (existsb (Nat.eqb (IReservation._id y)) ids) eqn:Ex.
    - unfold ended in Hended. cbn in Hended.
      now rewrite andb_false_r in Hended.
    - assert (Hin : In (IReservation._id y) ids).
      { apply in_map. apply filter_In. now split. }
      assert (Hex : existsb (Nat.eqb (IReservation._id y)) ids = true).
      { apply existsb_exists. exists (IReservation._id y).
        split; [assumption | apply Nat.eqb_refl]. }
      congruence. }
  split; [unfold cronJob; now rewrite Hrun|].
  split; [exact Hnone|].
  now apply cronJob_nothing_ended.
Qed.

Lemma sweep_idempotent_witness :
  let w1 := cronJob (jan 6) fleet in
  let w2 := cronJob (jan 6) w1 in
  cronJob (jan 6) fleet = w1
  /\ filter (ended (jan 6)) (reservations w1) = []
  /\ writes w2 = writes w1
  /\ reservations w2 = reservations w1
  /\ cars w2 = cars w1
  /\ statistics w2 = statistics w1.
Proof.
  apply (sweep_idempotent (jan 6) fleet (cronJob (jan 6) fleet)).
  - cbn. repeat constructor; cbn; intuition discriminate.
  - reflexivity.
Defined.

(** ** A failure in the middle of the loop *)

Lemma forEach_app {A} (xs ys : list A) (body : A -> Async unit) w :
  forEach (xs ++ ys) body w
  = bind (forEach xs body) (fun _ => forEach ys body) w.
Proof.
  revert w. induction xs as [|x xs IH]; intros w; [reflexivity|].
  cbn [app forEach]. unfold bind.
  destruct (body x w) as [[[]|e] w1]; [|reflexivity].
  rewrite IH. reflexivity.
Qed.

Lemma keeps_forEach_in {A T} (field : World -> T) (xs : list A)
    (body : A -> Async unit) :
  (forall x, In x xs -> keeps field (body x)) ->
  keeps field (forEach xs body).
Proof.
  induction xs as [|x xs IH]; intros Hb; cbn [forEach].
  - intros w. reflexivity.
  - apply keeps_bind; [apply Hb; now left|].
    intros _. apply IH. intros y Hy. apply Hb. now right.
Qed.

(** Whatever the store does, a turn of the loop leaves the reservations
    with another [_id] as they were. *)
Lemma sweep_one_others now r i :
  i <> IReservation._id r ->
  keeps (fun w => find (byId IReservation._id i) (reservations w))
        (sweep_one now r).
Proof.
  intros Hi.
  set (field := fun w => find (byId IReservation._id i) (reservations w)).
  assert (Hf : forall fs w0, field (with_faults fs w0) = field w0)
    by reflexivity.
  unfold sweep_one. apply keeps_bind.
  - apply (keeps_await field Hf). reflexivity.
  - intros car. apply keeps_bind.
    + destruct car as [c|]; [|intros w; reflexivity].
      apply keeps_bind.
      * apply (keeps_await field Hf). reflexivity.
      * intros l. destruct (length l =? 0); [|intros w; reflexivity].
        apply (keeps_await field Hf). intros w.
        now destruct (existsb _ _).
    + intros _. apply (keeps_await field Hf). intros w.
      destruct (existsb _ _); [|reflexivity].
      unfold field. cbn [snd]. world.
      apply find_updateOne_other.
      cbn [IReservation._id IReservation.set_status]. congruence.
Qed.

(** C7, as the job has it. The one handler of the pass is around the
    whole loop: when the turn of the reservation [r] throws, the exception
    is caught and printed, and the pass ends there.  The world the pass
    leaves is the world at the throw plus the printed line; the
    reservations that come after [r] in the batch are not processed, and
    no reservation outside the turns already taken is touched. *)
Theorem sweep_stops_at_error now w pre r post w0 w1 w2 e :
  Reservation.find (ended now) w = (Returned (pre ++ r :: post), w0) ->
  forEach pre (sweep_one now) w0 = (Returned tt, w1) ->
  sweep_one now r w1 = (Thrown e, w2) ->
  cronJob now w = console_error "Error updating car statuses:" e w2
  /\ forall i,
       ~ In i (map IReservation._id (pre ++ [r])) ->
       find (byId IReservation._id i) (reservations (cronJob now w))
       = find (byId IReservation._id i) (reservations w).
Proof.
  intros Hfind Hpre Hr.
  assert (Hjob : cronJob now w
                 = console_error "Error updating car statuses:" e w2).
  { unfold cronJob, sweep, bind. rewrite Hfind, forEach_app. unfold bind.
    rewrite Hpre. cbn [forEach]. unfold bind. now rewrite Hr. }
  split; [exact Hjob|].
  intros i Hi. rewrite Hjob. world.
  rewrite map_app, in_app_iff in Hi. cbn in Hi.
  change w2 with (snd (Thrown (A := unit) e, w2)). rewrite <- Hr.
  rewrite (sweep_one_others now r i)
    by (intros ->; apply Hi; right; now left).
  change w1 with (snd (Returned tt, w1)). rewrite <- Hpre.
  rewrite (keeps_forEach_in
             (fun w => find (byId IReservation._id i) (reservations w))).
  - change w0 with (snd (Returned (pre ++ r :: post), w0)).
    rewrite <- Hfind. unfold Reservation.find, await.
    now destruct (faults w) as [|[m|] fs].
  - intros x Hx. apply sweep_one_others. intros ->. apply Hi. left.
    now apply in_map.
Qed.

Lemma sweep_stops_at_error_witness :
  cronJob (jan 6) interrupted
  = console_error "Error updating car statuses:"
      (StoreError "connection reset") fleet
  /\ forall i,
       ~ In i (map IReservation._id ([] ++ [booking 10 1 IReservation.confirmed])) ->
       find (byId IReservation._id i) (reservations (cronJob (jan 6) interrupted))
       = find (byId IReservation._id i) (reservations interrupted).
Proof.
  apply (sweep_stops_at_error (jan 6) interrupted []
           (booking 10 1 IReservation.confirmed)
           [booking 20 2 IReservation.confirmed]
           (with_faults [Some "connection reset"] fleet)
           (with_faults [Some "connection reset"] fleet)
           fleet (StoreError "connection reset"));
    reflexivity.
Defined.

(** C7, as stated, fails: with two reservations in the batch and a store
    that fails once, while the car of the first is loaded, the pass ends
    with the second reservation still confirmed, where a loop with a
    handler around each turn would have completed it. *)
Lemma sweep_isolation_counterexample :
  let w' := cronJob (jan 6) interrupted in
  filter (ended (jan 6)) (reservations interrupted)
  = [booking 10 1 IReservation.confirmed; booking 20 2 IReservation.confirmed]
  /\ console w'
     = [("Error updating car statuses:", StoreError "connection reset")]
  /\ find (byId IReservation._id 20) (reservations w')
     = Some (booking 20 2 IReservation.confirmed)
  /\ find (byId IReservation._id 20)
       (reservations (cronJob_isolated (jan 6) interrupted))
     = Some (booking 20 2 IReservation.completed)
  /\ cronJob (jan 6) interrupted <> cronJob_isolated (jan 6) interrupted.
Proof.
  cbv zeta. repeat split; try reflexivity.
  intros E. apply (f_equal reservations) in E. vm_compute in E.
  discriminate E.
Qed.

(** * The scenarios of the lifecycle, run *)

(** A car is available; a booking is created, approved, and found ended
    by the pass of 2024-01-06. *)
Example lifecycle_scenario :
  let w0 := mkWorld [corolla 1 ICar.available] [] [] 10 [] [] [] in
  let w1 := snd (post_reservation 7 1 (jan 1) (jan 5) 200 w0) in
  let w2 := snd (patch_approve 10 w1) in
  let w3 := cronJob (jan 6) w2 in
  (reservations w1 = [booking 10 1 IReservation.pending]
   /\ statistics w1 = [shadow 11 10 IStatistics.pending]
   /\ cars w1 = [corolla 1 ICar.available])
  /\ (reservations w2 = [booking 10 1 IReservation.confirmed]
      /\ statistics w2 = [shadow 11 10 IStatistics.confirmed]
      /\ cars w2 = [corolla 1 ICar.reserved])
  /\ (reservations w3 = [booking 10 1 IReservation.completed]
      /\ statistics w3 = [shadow 11 10 IStatistics.confirmed]
      /\ cars w3 = [corolla 1 ICar.available]).
Proof. cbv zeta. repeat split; reflexivity. Qed.

(** A pending booking is rejected; approving it afterwards answers 404. *)
Example rejection_scenario :
  let w0 := store ICar.available IReservation.pending in
  let w1 := snd (patch_reject 10 w0) in
  reservations w1 = [] /\ statistics w1 = []
  /\ fst (patch_approve 10 w1)
     = respond 404 (JsonError "Reservation not found").
Proof. cbv zeta. repeat split; reflexivity. Qed.

(** * The lifecycle as the other routes see it *)

Lemma create_run userId carId startDate endDate totalCost w c :
  faults w = [] ->
  find (byId ICar._id carId) (cars w) = Some c ->
  exists msg,
    post_reservation userId carId startDate endDate totalCost w
    = (respond 201
         (JsonReservation msg
            (IReservation.mk (nextId w) carId userId startDate endDate
                             IReservation.pending totalCost)),
       created userId carId startDate endDate totalCost w).
Proof.
  intros Hq Hc.
  unfold post_reservation, handler, bind, Car.findById, Reservation.insert,
    Statistics.insert, newObjectId, ret.
  rewrite await_quiet by assumption. rewrite Hc.
  rewrite await_quiet by assumption. world.
  rewrite await_quiet by assumption. eexists. reflexivity.
Qed.

Lemma create_missing_car userId carId startDate endDate totalCost w :
  faults w = [] ->
  find (byId ICar._id carId) (cars w) = None ->
  post_reservation userId carId startDate endDate totalCost w
  = (respond 404 (JsonError "Car not found!"), w).
Proof.
  intros Hq Hc. unfold post_reservation, handler, bind, Car.findById.
  rewrite await_quiet by assumption. now rewrite Hc.
Qed.

(** In a quiet world an approval either leaves the world as it was or is
    the approval of a pending reservation on an available car. *)
Lemma approve_world id w :
  faults w = [] ->
  snd (patch_approve id w) = w
  \/ exists r c,
       find (byId IReservation._id id) (reservations w) = Some r
       /\ find (byId ICar._id (IReservation.carId r)) (cars w) = Some c
       /\ patch_approve id w
          = (respond 200
               (JsonReservation "Reservation approved successfully"
                  (IReservation.set_status IReservation.confirmed r)),
             approved id w r c).
Proof.
  intros Hq.
  destruct (find (byId IReservation._id id) (reservations w)) as [r|] eqn:Hr.
  - destruct (find (byId ICar._id (IReservation.carId r)) (cars w))
      as [c|] eqn:Hc.
    + destruct (IReservation.status r) eqn:Hs;
        try (left; destruct (approve_refused id w r c Hq Hr Hc) as [m ->];
             [rewrite Hs; intros [? _]; discriminate | reflexivity]).
      destruct (ICar.status c) eqn:Ha;
        try (left; destruct (approve_refused id w r c Hq Hr Hc) as [m ->];
             [rewrite Ha; intros [_ ?]; discriminate | reflexivity]).
      right. exists r, c. split; [reflexivity|]. split; [exact Hc|].
      now apply approve_run.
    + left. unfold patch_approve, handler, bind, Reservation.findById,
        Car.findById.
      rewrite await_quiet by assumption. rewrite Hr.
      destruct (IReservation.status r); cbn; try reflexivity.
      rewrite await_quiet by assumption. now rewrite Hc.
  - left. unfold patch_approve, handler, bind, Reservation.findById.
    rewrite await_quiet by assumption. now rewrite Hr.
Qed.

Lemma approved_reservations id w r c :
  reservations (approved id w r c)
  = updateOne IReservation._id
      (IReservation.set_status IReservation.confirmed r) (reservations w).
Proof.
  unfold approved.
  now destruct (find (byReservationId id) (statistics w)).
Qed.

Lemma approved_faults id w r c : faults (approved id w r c) = faults w.
Proof.
  unfold approved.
  now destruct (find (byReservationId id) (statistics w)).
Qed.

Lemma approved_cars id w r c :
  cars (approved id w r c)
  = updateOne ICar._id (ICar.set_status ICar.reserved c) (cars w).
Proof. reflexivity. Qed.

Lemma rejected_faults id w r : faults (rejected id w r) = faults w.
Proof.
  unfold rejected.
  now destruct (deletedId IStatistics._id (byReservationId id) (statistics w)).
Qed.

Lemma rejected_reservations id w r :
  reservations (rejected id w r)
  = deleteOne (byId IReservation._id id)
      (updateOne IReservation._id
         (IReservation.set_status IReservation.cancelled r) (reservations w)).
Proof.
  unfold rejected.
  now destruct (deletedId IStatistics._id (byReservationId id) (statistics w)).
Qed.

(** ** The reserved dates of a car *)

Lemma get_reservedDates_quiet car w :
  faults w = [] ->
  get_reservedDates car w
  = (reply 200 (Data (intervals (filter (byCarId car) (reservations w)))), w).
Proof.
  intros Hq. unfold get_reservedDates, bind, Reservation.find.
  now rewrite await_quiet by assumption.
Qed.

(** Updating by [_id] and deleting by [_id] take out the document that
    [find] by that [_id] returns. *)
Lemma deleteOne_updateOne_split {D} (key : D -> ObjectId) i d l x :
  find (byId key i) l = Some x -> key d = i ->
  exists l1 l2,
    l = l1 ++ x :: l2
    /\ deleteOne (byId key i) (updateOne key d l) = l1 ++ l2.
Proof.
  intros Hf Hk. subst i.
  induction l as [|y ys IH]; cbn in *; [discriminate|].
  destruct (byId key (key d) y) eqn:E.
  - injection Hf as ->. exists [], ys. cbn.
    unfold byId at 1. now rewrite Nat.eqb_refl.
  - destruct (IH Hf) as (l1 & l2 & -> & Hd).
    exists (y :: l1), l2. cbn. now rewrite E, Hd.
Qed.

Lemma updateOne_split {D} (key : D -> ObjectId) d l x :
  find (byId key (key d)) l = Some x ->
  exists l1 l2, l = l1 ++ x :: l2 /\ updateOne key d l = l1 ++ d :: l2.
Proof.
  intros Hf. induction l as [|y ys IH]; cbn in *; [discriminate|].
  destruct (byId key (key d) y) eqn:E.
  - injection Hf as ->. now exists [], ys.
  - destruct (IH Hf) as (l1 & l2 & -> & Hu).
    exists (y :: l1), l2. cbn. now rewrite Hu.
Qed.

Lemma intervals_app a b : intervals (a ++ b) = intervals a ++ intervals b.
Proof. apply map_app. Qed.

Lemma intervals_completing car ids rs :
  intervals (filter (byCarId car) (map (completing ids) rs))
  = intervals (filter (byCarId car) rs).
Proof.
  induction rs as [|y ys IH]; cbn; [reflexivity|].
  assert (E : byCarId car (completing ids y) = byCarId car y)
    by (unfold completing; now destruct (existsb _ _)).
  rewrite E. destruct (byCarId car y); [|exact IH].
  unfold intervals in *. cbn [map]. rewrite IH. f_equal.
  unfold completing. now destruct (existsb _ _).
Qed.

(** X1. A created reservation blocks its dates at once: after a creation
    that went through, the reserved dates of the car are the former ones
    followed by the new interval, although the reservation is only
    pending; the reserved dates of the other cars are as before. *)
Theorem create_blocks_dates userId carId startDate endDate totalCost w c car :
  faults w = [] ->
  find (byId ICar._id carId) (cars w) = Some c ->
  let w' := snd (post_reservation userId carId startDate endDate totalCost w) in
  exists ds,
    fst (get_reservedDates car w) = reply 200 (Data ds)
    /\ fst (get_reservedDates car w')
       = reply 200
           (Data (if car =? carId then ds ++ [(startDate, endDate)] else ds)).
Proof.
  intros Hq Hc w'. subst w'.
  destruct (create_run userId carId startDate endDate totalCost w c Hq Hc)
    as [msg ->]. cbn [snd].
  rewrite !get_reservedDates_quiet by assumption. cbn [fst].
  eexists. split; [reflexivity|]. do 2 f_equal.
  unfold created. world. rewrite filter_app, intervals_app. cbn [filter].
  unfold byCarId at 2. cbn [IReservation.carId].
  rewrite (Nat.eqb_sym carId car).
  destruct (car =? carId); [reflexivity | apply app_nil_r].
Qed.

Lemma create_blocks_dates_witness :
  let w := store ICar.available IReservation.confirmed in
  let w' := snd (post_reservation 8 1 (jan 6) (jan 9) 150 w) in
  exists ds,
    fst (get_reservedDates 1 w) = reply 200 (Data ds)
    /\ fst (get_reservedDates 1 w')
       = reply 200 (Data (if 1 =? 1 then ds ++ [(jan 6, jan 9)] else ds)).
Proof.
  apply (create_blocks_dates 8 1 (jan 6) (jan 9) 150
           (store ICar.available IReservation.confirmed)
           (corolla 1 ICar.available) 1); reflexivity.
Defined.

(** X2. A rejection frees the dates: after the rejection of a pending
    reservation, with or without a statistics record, the reserved dates
    of its car are the former ones less the interval of that reservation,
    and the reserved dates of the other cars are as before. *)
Theorem reject_frees_dates id w r :
  faults w = [] ->
  find (byId IReservation._id id) (reservations w) = Some r ->
  IReservation.status r = IReservation.pending ->
  let w' := snd (patch_reject id w) in
  (exists l1 l2,
      fst (get_reservedDates (IReservation.carId r) w)
      = reply 200
          (Data (l1 ++ (IReservation.startDate r, IReservation.endDate r)
                       :: l2))
      /\ fst (get_reservedDates (IReservation.carId r) w')
         = reply 200 (Data (l1 ++ l2)))
  /\ forall car,
       car <> IReservation.carId r ->
       fst (get_reservedDates car w') = fst (get_reservedDates car w).
Proof.
  intros Hq Hr Hs w'. subst w'.
  rewrite (reject_run id w r Hq Hr Hs). cbn [snd].
  assert (Hq' : faults (rejected id w r) = [])
    by (now rewrite rejected_faults).
  destruct (deleteOne_updateOne_split IReservation._id id
              (IReservation.set_status IReservation.cancelled r)
              (reservations w) r Hr) as (a & b & Ea & Eb).
  { cbn. eapply find_byId_key; eassumption. }
  split.
  - exists (intervals (filter (byCarId (IReservation.carId r)) a)),
      (intervals (filter (byCarId (IReservation.carId r)) b)).
    rewrite !get_reservedDates_quiet by assumption. cbn [fst].
    rewrite rejected_reservations, Eb, Ea, !filter_app, !intervals_app.
    cbn [filter]. unfold byCarId at 2. rewrite Nat.eqb_refl.
    split; reflexivity.
  - intros car Hcar.
    rewrite !get_reservedDates_quiet by assumption. cbn [fst].
    rewrite rejected_reservations, Eb, Ea, !filter_app. cbn [filter].
    unfold byCarId at 4.
    assert (E : (IReservation.carId r =? car) = false)
      by (apply Nat.eqb_neq; congruence).
    now rewrite E.
Qed.

Lemma reject_frees_dates_witness :
  let w := store ICar.available IReservation.pending in
  let w' := snd (patch_reject 10 w) in
  (exists l1 l2,
      fst (get_reservedDates 1 w) = reply 200 (Data (l1 ++ (jan 1, jan 5) :: l2))
      /\ fst (get_reservedDates 1 w') = reply 200 (Data (l1 ++ l2)))
  /\ forall car,
       car <> 1 ->
       fst (get_reservedDates car w') = fst (get_reservedDates car w).
Proof.
  apply (reject_frees_dates 10 (store ICar.available IReservation.pending)
           (booking 10 1 IReservation.pending)); reflexivity.
Defined.

Lemma intervals_updateOne car d l x :
  find (byId IReservation._id (IReservation._id d)) l = Some x ->
  IReservation.carId d = IReservation.carId x ->
  IReservation.startDate d = IReservation.startDate x ->
  IReservation.endDate d = IReservation.endDate x ->
  intervals (filter (byCarId car) (updateOne IReservation._id d l))
  = intervals (filter (byCarId car) l).
Proof.
  intros Hf Hc Hs He.
  destruct (updateOne_split IReservation._id d l x Hf) as (a & b & -> & ->).
  assert (E : byCarId car d = byCarId car x)
    by (unfold byCarId; now rewrite Hc).
  rewrite !filter_app. cbn [filter]. rewrite E.
  destruct (byCarId car x); [|reflexivity].
  rewrite !intervals_app. f_equal. unfold intervals. cbn [map].
  now rewrite Hs, He.
Qed.

(** X3. Approval and reconciliation never free dates: whatever an approval
    answers, and after a reconciliation pass, the reserved dates of every
    car are as before; confirmed and completed reservations block their
    dates as pending ones do. *)
Theorem reserved_dates_survive w :
  faults w = [] ->
  NoDup (map IReservation._id (reservations w)) ->
  (forall id car,
      fst (get_reservedDates car (snd (patch_approve id w)))
      = fst (get_reservedDates car w))
  /\ (forall now car,
        fst (get_reservedDates car (cronJob now w))
        = fst (get_reservedDates car w)).
Proof.
  intros Hq Hnd. split.
  - intros id car. destruct (approve_world id w Hq) as [-> | H];
      [reflexivity|].
    destruct H as (r & c & Hr & Hc & ->). cbn [snd].
    rewrite !get_reservedDates_quiet
      by (try rewrite approved_faults; assumption).
    cbn [fst]. do 2 f_equal. rewrite approved_reservations.
    apply intervals_updateOne with (x := r); try reflexivity.
    cbn [IReservation._id IReservation.set_status].
    now rewrite (find_byId_key _ _ _ _ Hr).
  - intros now car. rewrite cronJob_quiet by assumption.
    rewrite !get_reservedDates_quiet
      by (try rewrite swept_faults; assumption).
    cbn [fst]. do 2 f_equal.
    rewrite swept_reservations by (now apply batch_ended).
    apply intervals_completing.
Qed.

Lemma reserved_dates_survive_witness :
  (forall id car,
      fst (get_reservedDates car (snd (patch_approve id fleet)))
      = fst (get_reservedDates car fleet))
  /\ (forall now car,
        fst (get_reservedDates car (cronJob now fleet))
        = fst (get_reservedDates car fleet)).
Proof.
  apply (reserved_dates_survive fleet); [reflexivity|].
  cbn. repeat constructor; cbn; intuition discriminate.
Defined.

(** X4. What a reconciliation pass leaves alone (the store not failing):
    the statistics; every reservation that is not confirmed with an end
    before [now]; every car that no such reservation names.  The pass
    neither adds nor removes a reservation. *)
Theorem sweep_frame now w :
  faults w = [] ->
  NoDup (map IReservation._id (reservations w)) ->
  let w' := cronJob now w in
  statistics w' = statistics w
  /\ map IReservation._id (reservations w') = map IReservation._id (reservations w)
  /\ (forall r,
        In r (reservations w) -> ended now r = false ->
        find (byId IReservation._id (IReservation._id r)) (reservations w')
        = Some r)
  /\ (forall car,
        (forall r, In r (reservations w) -> ended now r = true ->
                   IReservation.carId r <> car) ->
        find (byId ICar._id car) (cars w') = find (byId ICar._id car) (cars w)).
Proof.
  intros Hq Hnd w'. subst w'. rewrite cronJob_quiet by assumption.
  pose proof (batch_ended now w Hnd) as Hb.
  rewrite swept_statistics, swept_reservations by assumption.
  split; [reflexivity|]. split; [|split].
  - rewrite map_map. apply map_ext. intros y. apply completing_id.
  - intros r Hin Hne.
    rewrite find_map_key by (intros x; apply completing_id).
    rewrite find_byId_In by assumption. cbn [option_map]. f_equal.
    unfold completing.
    destruct (existsb (Nat.eqb (IReservation._id r))
                (map IReservation._id (filter (ended now) (reservations w))))
      eqn:Ex; [|reflexivity].
    exfalso. apply existsb_exists in Ex. destruct Ex as [i [Hi Ei]].
    apply Nat.eqb_eq in Ei. subst i. apply in_map_iff in Hi.
    destruct Hi as [y [Ey Hy]]. apply filter_In in Hy.
    destruct Hy as [Hy Hended].
    assert (y = r)
      by (apply (NoDup_key_inj IReservation._id (reservations w));
          assumption).
    subst y. congruence.
  - intros car Hcar. rewrite swept_cars_find by assumption.
    destruct (existsb (fun x => IReservation.carId x =? car)
                (filter (ended now) (reservations w))) eqn:Ex;
      [|reflexivity].
    exfalso. apply existsb_exists in Ex. destruct Ex as [y [Hy Ey]].
    apply filter_In in Hy. apply Nat.eqb_eq in Ey.
    now apply (Hcar y).
Qed.

Lemma sweep_frame_witness :
  let w' := cronJob (jan 6) fleet in
  statistics w' = statistics fleet
  /\ map IReservation._id (reservations w')
     = map IReservation._id (reservations fleet)
  /\ (forall r,
        In r (reservations fleet) -> ended (jan 6) r = false ->
        find (byId IReservation._id (IReservation._id r)) (reservations w')
        = Some r)
  /\ (forall car,
        (forall r, In r (reservations fleet) -> ended (jan 6) r = true ->
                   IReservation.carId r <> car) ->
        find (byId ICar._id car) (cars w')
        = find (byId ICar._id car) (cars fleet)).
Proof.
  apply (sweep_frame (jan 6) fleet); [reflexivity|].
  cbn. repeat constructor; cbn; intuition discriminate.
Defined.

(** A field that the two updates of the loop leave alone is out of reach
    of the pass, whatever the store does. *)
Lemma cronJob_keeps {T} (field : World -> T) now w :
  (forall fs w0, field (with_faults fs w0) = field w0) ->
  (forall label e w0, field (console_error label e w0) = field w0) ->
  (forall c w0,
      field (journal (Updated Cars (ICar._id c))
               (with_cars (updateOne ICar._id c (cars w0)) w0))
      = field w0) ->
  (forall r w0,
      field (journal (Updated Reservations (IReservation._id r))
               (with_reservations
                  (updateOne IReservation._id r (reservations w0)) w0))
      = field w0) ->
  field (cronJob now w) = field w.
Proof.
  intros Hf Hlog Hcar Hres.
  assert (K : keeps field (sweep now)).
  { unfold sweep. apply keeps_bind.
    - apply (keeps_await field Hf). reflexivity.
    - intros l. apply keeps_forEach_in. intros r _.
      unfold sweep_one. apply keeps_bind.
      + apply (keeps_await field Hf). reflexivity.
      + intros car. apply keeps_bind.
        * destruct car as [c|]; [|intros w0; reflexivity].
          apply keeps_bind; [apply (keeps_await field Hf); reflexivity|].
          intros ov. destruct (length ov =? 0); [|intros w0; reflexivity].
          apply (keeps_await field Hf). intros w0.
          destruct (existsb _ _); [apply Hcar | reflexivity].
        * intros _. apply (keeps_await field Hf). intros w0.
          destruct (existsb _ _); [apply Hres | reflexivity]. }
  unfold cronJob. specialize (K w).
  destruct (sweep now w) as [[[]|e] w1]; cbn [snd] in K;
    [|rewrite Hlog]; exact K.
Qed.

Lemma cronJob_statistics now w : statistics (cronJob now w) = statistics w.
Proof. apply cronJob_keeps; reflexivity. Qed.

(** X5. What no reconciliation pass does, whatever the store does and
    wherever the pass stops: it writes no statistics record, and it
    neither adds nor removes a reservation or a car. *)
Theorem sweep_only_updates now w :
  statistics (cronJob now w) = statistics w
  /\ map IReservation._id (reservations (cronJob now w))
     = map IReservation._id (reservations w)
  /\ map ICar._id (cars (cronJob now w)) = map ICar._id (cars w).
Proof.
  split; [apply cronJob_statistics|]. split.
  - apply (cronJob_keeps (fun w0 => map IReservation._id (reservations w0)));
      try reflexivity.
    intros r w0. world. apply map_key_updateOne.
  - apply (cronJob_keeps (fun w0 => map ICar._id (cars w0)));
      try reflexivity.
    intros c w0. world. apply map_key_updateOne.
Qed.

(** ** Approvals in sequence *)

Lemma find_app_none {D} (q : D -> bool) l x :
  find q l = None -> find q (l ++ [x]) = if q x then Some x else None.
Proof.
  induction l as [|y ys IH]; cbn; [reflexivity|].
  destruct (q y); [discriminate | exact IH].
Qed.

Lemma find_app_some {D} (q : D -> bool) l l' x :
  find q l = Some x -> find q (l ++ l') = Some x.
Proof.
  induction l as [|y ys IH]; cbn; [discriminate|].
  destruct (q y); [trivial | exact IH].
Qed.

(** X6. One approval per car: once a reservation on a car has been
    approved, the approval of any other pending reservation on that car is
    refused with status 400 and writes nothing, whatever the dates of the
    two reservations. *)
Theorem approve_once_per_car id1 id2 w r1 r2 c :
  faults w = [] ->
  find (byId IReservation._id id1) (reservations w) = Some r1 ->
  IReservation.status r1 = IReservation.pending ->
  find (byId ICar._id (IReservation.carId r1)) (cars w) = Some c ->
  ICar.status c = ICar.available ->
  find (byId IReservation._id id2) (reservations w) = Some r2 ->
  IReservation.status r2 = IReservation.pending ->
  id2 <> id1 ->
  IReservation.carId r2 = IReservation.carId r1 ->
  let w1 := snd (patch_approve id1 w) in
  Succeeded (fst (patch_approve id1 w))
  /\ fst (patch_approve id2 w1)
     = respond 400 (JsonError "Car is not available!")
  /\ snd (patch_approve id2 w1) = w1.
Proof.
  intros Hq Hr1 Hs1 Hc Ha Hr2 Hs2 Hne Hcar w1. subst w1.
  rewrite (approve_run id1 w r1 c Hq Hr1 Hc Hs1 Ha). cbn [fst snd].
  split; [reflexivity|].
  assert (Hid1 : IReservation._id r1 = id1)
    by (eapply find_byId_key; eassumption).
  assert (Hcid : ICar._id c = IReservation.carId r1)
    by (eapply find_byId_key; eassumption).
  assert (Hq1 : faults (approved id1 w r1 c) = [])
    by (now rewrite approved_faults).
  assert (Hr2' : find (byId IReservation._id id2)
                   (reservations (approved id1 w r1 c)) = Some r2).
  { rewrite approved_reservations, find_updateOne_other; [assumption|].
    cbn [IReservation._id IReservation.set_status]. congruence. }
  assert (Hc' : find (byId ICar._id (IReservation.carId r2))
                  (cars (approved id1 w r1 c))
                = Some (ICar.set_status ICar.reserved c)).
  { rewrite approved_cars, Hcar, <- Hcid.
    change (ICar._id c)
      with (ICar._id (ICar.set_status ICar.reserved c)) at 1.
    apply find_updateOne_same. cbn [ICar._id ICar.set_status].
    rewrite Hcid. eapply find_byId_existsb; eassumption. }
  destruct (approve_refused id2 (approved id1 w r1 c) r2
              (ICar.set_status ICar.reserved c) Hq1 Hr2' Hc') as [msg E].
  { cbn. intros [_ H]. discriminate H. }
  rewrite E. cbn [fst snd]. split; [|reflexivity].
  revert E. unfold patch_approve, handler, bind, Reservation.findById,
    Car.findById.
  rewrite await_quiet by assumption. rewrite Hr2', Hs2. cbn.
  rewrite await_quiet by assumption. rewrite Hc'. cbn.
  now intros [= <-].
Qed.

Lemma approve_once_per_car_witness :
  let w := mkWorld [corolla 1 ICar.available]
                   [booking 10 1 IReservation.pending;
                    IReservation.mk 11 1 8 (jan 6) (jan 9)
                                    IReservation.pending 150]
                   [] 12 [] [] [] in
  let w1 := snd (patch_approve 10 w) in
  Succeeded (fst (patch_approve 10 w))
  /\ fst (patch_approve 11 w1)
     = respond 400 (JsonError "Car is not available!")
  /\ snd (patch_approve 11 w1) = w1.
Proof.
  apply (approve_once_per_car 10 11
           (mkWorld [corolla 1 ICar.available]
                    [booking 10 1 IReservation.pending;
                     IReservation.mk 11 1 8 (jan 6) (jan 9)
                                     IReservation.pending 150]
                    [] 12 [] [] [])
           (booking 10 1 IReservation.pending)
           (IReservation.mk 11 1 8 (jan 6) (jan 9) IReservation.pending 150)
           (corolla 1 ICar.available));
    try reflexivity.
  discriminate.
Defined.

(** X7. A created reservation can be approved under the [_id] the
    creation answered: when the car is available and the new [_id] is not
    the [_id] of a stored reservation, the creation followed by the
    approval of that [_id] leaves the new reservation confirmed and the
    car reserved. *)
Theorem create_then_approve userId carId startDate endDate totalCost w c :
  faults w = [] ->
  find (byId ICar._id carId) (cars w) = Some c ->
  ICar.status c = ICar.available ->
  find (byId IReservation._id (nextId w)) (reservations w) = None ->
  let r := IReservation.mk (nextId w) carId userId startDate endDate
                           IReservation.pending totalCost in
  let w1 := snd (post_reservation userId carId startDate endDate totalCost w) in
  let w2 := snd (patch_approve (nextId w) w1) in
  (exists msg,
      fst (post_reservation userId carId startDate endDate totalCost w)
      = respond 201 (JsonReservation msg r))
  /\ Succeeded (fst (patch_approve (nextId w) w1))
  /\ find (byId IReservation._id (nextId w)) (reservations w2)
     = Some (IReservation.set_status IReservation.confirmed r)
  /\ find (byId ICar._id carId) (cars w2)
     = Some (ICar.set_status ICar.reserved c).
Proof.
  intros Hq Hc Ha Hfresh r w1 w2. subst w1 w2.
  destruct (create_run userId carId startDate endDate totalCost w c Hq Hc)
    as [msg E].
  rewrite E. cbn [fst snd]. split; [now exists msg|].
  set (w1 := created userId carId startDate endDate totalCost w).
  assert (Hq1 : faults w1 = []) by exact Hq.
  assert (Hr : find (byId IReservation._id (nextId w)) (reservations w1)
               = Some r).
  { unfold w1, created. world. rewrite find_app_none by assumption.
    unfold byId. cbn [IReservation._id]. now rewrite Nat.eqb_refl. }
  assert (Hc1 : find (byId ICar._id (IReservation.carId r)) (cars w1)
                = Some c) by exact Hc.
  rewrite (approve_run (nextId w) w1 r c Hq1 Hr Hc1 eq_refl Ha).
  cbn [fst snd]. split; [reflexivity|].
  assert (Hcid : ICar._id c = carId)
    by (eapply find_byId_key; eassumption).
  split.
  - rewrite approved_reservations.
    change (nextId w)
      with (IReservation._id
              (IReservation.set_status IReservation.confirmed r)) at 1.
    apply find_updateOne_same. eapply find_byId_existsb. exact Hr.
  - rewrite approved_cars. rewrite <- Hcid at 1.
    change (ICar._id c)
      with (ICar._id (ICar.set_status ICar.reserved c)) at 1.
    apply find_updateOne_same. cbn [ICar._id ICar.set_status].
    rewrite Hcid. eapply find_byId_existsb; eassumption.
Qed.

Lemma create_then_approve_witness :
  let w := mkWorld [corolla 1 ICar.available] [] [] 10 [] [] [] in
  let w1 := snd (post_reservation 7 1 (jan 1) (jan 5) 200 w) in
  let w2 := snd (patch_approve 10 w1) in
  (exists msg,
      fst (post_reservation 7 1 (jan 1) (jan 5) 200 w)
      = respond 201 (JsonReservation msg (booking 10 1 IReservation.pending)))
  /\ Succeeded (fst (patch_approve 10 w1))
  /\ find (byId IReservation._id 10) (reservations w2)
     = Some (booking 10 1 IReservation.confirmed)
  /\ find (byId ICar._id 1) (cars w2) = Some (corolla 1 ICar.reserved).
Proof.
  apply (create_then_approve 7 1 (jan 1) (jan 5) 200
           (mkWorld [corolla 1 ICar.available] [] [] 10 [] [] [])
           (corolla 1 ICar.available)); reflexivity.
Defined.

(** ** The revenue overview *)

Lemma get_overview_quiet nextDay date w :
  faults w = [] ->
  get_overview nextDay date w
  = (reply 200
       (Data (revenueOf
                match date with
                | Some startDate => dateWithin startDate (nextDay startDate)
                | None => fun _ => true
                end (statistics w))),
     w).
Proof.
  intros Hq. unfold get_overview, bind, aggregate_totalRevenue, revenueOf.
  rewrite await_quiet by assumption. unfold ret.
  now destruct (filter _ (statistics w)).
Qed.

Lemma revenueOf_app q a b :
  revenueOf q (a ++ b) = (revenueOf q a + revenueOf q b)%Z.
Proof.
  unfold revenueOf. rewrite filter_app, map_app.
  induction (map IStatistics.revenue (filter q a)) as [|x xs IH]; cbn.
  - reflexivity.
  - rewrite IH. lia.
Qed.

Lemma revenueOf_one q s :
  revenueOf q [s] = if q s then IStatistics.revenue s else 0%Z.
Proof.
  unfold revenueOf. cbn. destruct (q s); cbn; lia.
Qed.

Lemma created_statistics userId carId startDate endDate totalCost w :
  statistics (created userId carId startDate endDate totalCost w)
  = statistics w
    ++ [IStatistics.mk (S (nextId w)) (castDate (toISODate startDate))
                       totalCost IStatistics.pending (nextId w)].
Proof. reflexivity. Qed.

(** X8. A creation counts as revenue at once: after a creation that went
    through, the total revenue of the overview is the former total plus
    [totalCost], although the payment is only pending; and the overview of
    the day of [startDate] rises by [totalCost] too, provided the step of
    one local day leads to a later instant. *)
Theorem create_counts_revenue nextDay userId carId startDate endDate
    totalCost w c :
  faults w = [] ->
  find (byId ICar._id carId) (cars w) = Some c ->
  let day := castDate (toISODate startDate) in
  (day < nextDay day)%Z ->
  let w' := snd (post_reservation userId carId startDate endDate totalCost w) in
  (exists t,
      fst (get_overview nextDay None w) = reply 200 (Data t)
      /\ fst (get_overview nextDay None w')
         = reply 200 (Data (t + totalCost)%Z))
  /\ (exists t,
        fst (get_overview nextDay (Some day) w) = reply 200 (Data t)
        /\ fst (get_overview nextDay (Some day) w')
           = reply 200 (Data (t + totalCost)%Z)).
Proof.
  intros Hq Hc day Hday w'. subst w'.
  destruct (create_run userId carId startDate endDate totalCost w c Hq Hc)
    as [msg ->]. cbn [snd].
  rewrite !get_overview_quiet by assumption. cbn [fst].
  rewrite created_statistics, !revenueOf_app, !revenueOf_one.
  cbn [IStatistics.revenue IStatistics.date].
  split; eexists; (split; [reflexivity|]); [reflexivity|].
  unfold dateWithin. cbn [IStatistics.date]. fold day.
  assert (E1 : (day <=? day)%Z = true) by (apply Z.leb_le; lia).
  assert (E2 : (day <? nextDay day)%Z = true) by (now apply Z.ltb_lt).
  now rewrite E1, E2.
Qed.

Lemma create_counts_revenue_witness :
  let nextDay := fun d => (d + msPerDay)%Z in
  let w := store ICar.available IReservation.confirmed in
  let w' := snd (post_reservation 8 1 (jan 6 + 3600000)%Z (jan 9) 150 w) in
  (exists t,
      fst (get_overview nextDay None w) = reply 200 (Data t)
      /\ fst (get_overview nextDay None w') = reply 200 (Data (t + 150)%Z))
  /\ (exists t,
        fst (get_overview nextDay (Some (jan 6)) w) = reply 200 (Data t)
        /\ fst (get_overview nextDay (Some (jan 6)) w')
           = reply 200 (Data (t + 150)%Z)).
Proof.
  apply (create_counts_revenue (fun d => (d + msPerDay)%Z) 8 1
           (jan 6 + 3600000)%Z (jan 9) 150
           (store ICar.available IReservation.confirmed)
           (corolla 1 ICar.available)); reflexivity.
Defined.

Lemma revenueOf_updateOne q d l x :
  find (byId IStatistics._id (IStatistics._id d)) l = Some x ->
  IStatistics.date d = IStatistics.date x ->
  IStatistics.revenue d = IStatistics.revenue x ->
  (forall a b, IStatistics.date a = IStatistics.date b -> q a = q b) ->
  revenueOf q (updateOne IStatistics._id d l) = revenueOf q l.
Proof.
  intros Hf Hd Hr Hq.
  destruct (updateOne_split IStatistics._id d l x Hf) as (a & b & -> & ->).
  change (x :: b) with ([x] ++ b). change (d :: b) with ([d] ++ b).
  rewrite !revenueOf_app, !revenueOf_one, (Hq d x Hd), Hr. reflexivity.
Qed.

Lemma approved_statistics id w r c :
  statistics (approved id w r c)
  = match find (byReservationId id) (statistics w) with
    | Some s =>
        updateOne IStatistics._id
          (IStatistics.set_paymentStatus IStatistics.confirmed s)
          (statistics w)
    | None => statistics w
    end.
Proof.
  unfold approved.
  now destruct (find (byReservationId id) (statistics w)).
Qed.

(** X9. The revenue overview does not look at the payment status: whatever
    an approval answers, and after a reconciliation pass, the overview,
    total or of a day, answers what it answered before. *)
Theorem revenue_ignores_status nextDay date w :
  faults w = [] ->
  NoDup (map IReservation._id (reservations w)) ->
  NoDup (map IStatistics._id (statistics w)) ->
  (forall id,
      fst (get_overview nextDay date (snd (patch_approve id w)))
      = fst (get_overview nextDay date w))
  /\ (forall now,
        fst (get_overview nextDay date (cronJob now w))
        = fst (get_overview nextDay date w)).
Proof.
  intros Hq Hnr Hns. split.
  - intros id. destruct (approve_world id w Hq) as [-> | H]; [reflexivity|].
    destruct H as (r & c & Hr & Hc & ->). cbn [snd].
    rewrite !get_overview_quiet
      by (try rewrite approved_faults; assumption).
    cbn [fst]. do 2 f_equal. rewrite approved_statistics.
    destruct (find (byReservationId id) (statistics w)) as [s|] eqn:Fs;
      [|reflexivity].
    apply revenueOf_updateOne with (x := s); try reflexivity.
    + cbn [IStatistics._id IStatistics.set_paymentStatus].
      apply find_byId_In; [assumption|]. apply find_some in Fs. tauto.
    + intros a b E. destruct date as [d|]; [|reflexivity].
      unfold dateWithin. now rewrite E.
  - intros now.
    rewrite !get_overview_quiet
      by (try rewrite cronJob_quiet, swept_faults; assumption).
    cbn [fst]. now rewrite cronJob_statistics.
Qed.

Lemma revenue_ignores_status_witness :
  let nextDay := fun d => (d + msPerDay)%Z in
  let w := store ICar.available IReservation.pending in
  (forall id,
      fst (get_overview nextDay (Some (jan 1)) (snd (patch_approve id w)))
      = fst (get_overview nextDay (Some (jan 1)) w))
  /\ (forall now,
        fst (get_overview nextDay (Some (jan 1)) (cronJob now w))
        = fst (get_overview nextDay (Some (jan 1)) w)).
Proof.
  apply (revenue_ignores_status (fun d => (d + msPerDay)%Z) (Some (jan 1))
           (store ICar.available IReservation.pending));
    try reflexivity; cbn; (constructor; [intros [] | constructor]).
Defined.

(** X10. A rejection takes the revenue back: after the rejection of a
    pending reservation whose statistics record is [s], the total revenue
    of the overview is the former total less the revenue of [s]. *)
Theorem reject_takes_revenue_back nextDay id w r s :
  faults w = [] ->
  find (byId IReservation._id id) (reservations w) = Some r ->
  IReservation.status r = IReservation.pending ->
  find (byReservationId id) (statistics w) = Some s ->
  let w' := snd (patch_reject id w) in
  exists t,
    fst (get_overview nextDay None w) = reply 200 (Data t)
    /\ fst (get_overview nextDay None w')
       = reply 200 (Data (t - IStatistics.revenue s)%Z).
Proof.
  intros Hq Hr Hs Fs w'. subst w'.
  rewrite (reject_run id w r Hq Hr Hs). cbn [snd].
  rewrite !get_overview_quiet by (try rewrite rejected_faults; assumption).
  cbn [fst]. eexists. split; [reflexivity|]. do 2 f_equal.
  destruct (deleteOne_split _ _ _ Fs) as (l1 & l2 & E1 & E2 & _).
  assert (Hst : statistics (rejected id w r) = l1 ++ l2).
  { unfold rejected, deletedId. rewrite Fs. cbn [option_map]. world.
    exact E2. }
  rewrite Hst, E1. change (s :: l2) with ([s] ++ l2).
  rewrite !revenueOf_app, revenueOf_one. lia.
Qed.

Lemma reject_takes_revenue_back_witness :
  let nextDay := fun d => (d + msPerDay)%Z in
  let w := store ICar.available IReservation.pending in
  let w' := snd (patch_reject 10 w) in
  exists t,
    fst (get_overview nextDay None w) = reply 200 (Data t)
    /\ fst (get_overview nextDay None w') = reply 200 (Data (t - 200)%Z).
Proof.
  apply (reject_takes_revenue_back (fun d => (d + msPerDay)%Z) 10
           (store ICar.available IReservation.pending)
           (booking 10 1 IReservation.pending)
           (shadow 11 10 IStatistics.pending)); reflexivity.
Defined.

(** ** Cars that go away, cars that look alike *)

Lemma delete_car_quiet id w :
  faults w = [] ->
  delete_car id w
  = match find (byId ICar._id id) (cars w) with
    | Some _ =>
        (reply 200 (MessageJson "Car deleted successfully"),
         journal (Deleted Cars id)
                 (with_cars (deleteOne (byId ICar._id id) (cars w)) w))
    | None => (reply 404 (ErrorJson "Car not found"), w)
    end.
Proof.
  intros Hq. unfold delete_car, bind, Car_findByIdAndDelete.
  rewrite await_quiet by assumption.
  now destruct (find (byId ICar._id id) (cars w)).
Qed.

(** X11. Deleting a car asks nothing about its reservations: the deletion
    of a stored car answers 200 whatever the status of the car, and leaves
    the reservations and the statistics as they were.  Afterwards the
    approval of a pending reservation on that car, and the creation of a
    reservation on it, answer 404 and write nothing; a second deletion
    answers 404. *)
Theorem delete_car_orphans id w c :
  faults w = [] ->
  NoDup (map ICar._id (cars w)) ->
  find (byId ICar._id id) (cars w) = Some c ->
  let w1 := snd (delete_car id w) in
  fst (delete_car id w) = reply 200 (MessageJson "Car deleted successfully")
  /\ reservations w1 = reservations w
  /\ statistics w1 = statistics w
  /\ (forall rid r,
        find (byId IReservation._id rid) (reservations w) = Some r ->
        IReservation.carId r = id ->
        IReservation.status r = IReservation.pending ->
        patch_approve rid w1 = (respond 404 (JsonError "Car not found!"), w1))
  /\ (forall userId startDate endDate totalCost,
        post_reservation userId id startDate endDate totalCost w1
        = (respond 404 (JsonError "Car not found!"), w1))
  /\ delete_car id w1 = (reply 404 (ErrorJson "Car not found"), w1).
Proof.
  intros Hq Hnd Hc w1. subst w1.
  rewrite (delete_car_quiet id w Hq), Hc. cbn [fst snd].
  set (w1 := journal (Deleted Cars id)
               (with_cars (deleteOne (byId ICar._id id) (cars w)) w)).
  assert (Hq1 : faults w1 = []) by exact Hq.
  assert (Hgone : find (byId ICar._id id) (cars w1) = None)
    by (apply find_deleteOne_byId; exact Hnd).
  repeat split.
  - intros rid r Hr Hcar Hs.
    unfold patch_approve, handler, bind, Reservation.findById, Car.findById.
    rewrite await_quiet by assumption.
    change (reservations w1) with (reservations w). rewrite Hr, Hs. cbn.
    rewrite await_quiet by assumption. now rewrite Hcar, Hgone.
  - intros userId startDate endDate totalCost.
    now apply create_missing_car.
  - rewrite (delete_car_quiet id w1 Hq1). now rewrite Hgone.
Qed.

Lemma delete_car_orphans_witness :
  let w := store ICar.reserved IReservation.pending in
  let w1 := snd (delete_car 1 w) in
  fst (delete_car 1 w) = reply 200 (MessageJson "Car deleted successfully")
  /\ reservations w1 = reservations w
  /\ statistics w1 = statistics w
  /\ (forall rid r,
        find (byId IReservation._id rid) (reservations w) = Some r ->
        IReservation.carId r = 1 ->
        IReservation.status r = IReservation.pending ->
        patch_approve rid w1 = (respond 404 (JsonError "Car not found!"), w1))
  /\ (forall userId startDate endDate totalCost,
        post_reservation userId 1 startDate endDate totalCost w1
        = (respond 404 (JsonError "Car not found!"), w1))
  /\ delete_car 1 w1 = (reply 404 (ErrorJson "Car not found"), w1).
Proof.
  apply (delete_car_orphans 1 (store ICar.reserved IReservation.pending)
           (corolla 1 ICar.reserved)); try reflexivity.
  cbn. constructor; [intros [] | constructor].
Defined.

Lemma In_firstn {A} n (l : list A) x : In x (firstn n l) -> In x l.
Proof.
  revert l. induction n as [|n IH]; intros [|y ys]; cbn; try tauto.
  intros [->|H]; [now left | right; now apply IH].
Qed.

Lemma vehicleSize_eqb_eq a b : vehicleSize_eqb a b = true <-> a = b.
Proof. destruct a, b; cbn; split; congruence. Qed.

Lemma similarTo_spec c x :
  similarTo c x = true <->
  ICar._id x <> ICar._id c
  /\ (ICar.vehicleSize x = ICar.vehicleSize c
      \/ (ICar.dailyRate c - 50 <= ICar.dailyRate x <= ICar.dailyRate c + 50)%Z).
Proof.
  unfold similarTo.
  rewrite andb_true_iff, negb_true_iff, Nat.eqb_neq, orb_true_iff,
    andb_true_iff, vehicleSize_eqb_eq, !Z.leb_le.
  tauto.
Qed.

(** X12. The similar cars of a stored car: the answer has at most five
    cars, all stored, none of them the car itself, each of the same
    vehicle size or with a daily rate within 50 of its rate; and when the
    answer has fewer than five cars, it has every such car. *)
Theorem similar_cars carId w c :
  faults w = [] ->
  find (byId ICar._id carId) (cars w) = Some c ->
  exists l,
    get_similar carId w = (reply 200 (Data l), w)
    /\ length l <= 5
    /\ (forall x,
          In x l ->
          In x (cars w) /\ ICar._id x <> carId
          /\ (ICar.vehicleSize x = ICar.vehicleSize c
              \/ (ICar.dailyRate c - 50 <= ICar.dailyRate x
                  <= ICar.dailyRate c + 50)%Z))
    /\ (length l < 5 ->
        forall x,
          In x (cars w) -> ICar._id x <> carId ->
          ICar.vehicleSize x = ICar.vehicleSize c
          \/ (ICar.dailyRate c - 50 <= ICar.dailyRate x
              <= ICar.dailyRate c + 50)%Z ->
          In x l).
Proof.
  intros Hq Hc.
  assert (Hid : ICar._id c = carId) by (eapply find_byId_key; eassumption).
  exists (firstn 5 (filter (similarTo c) (cars w))). split; [|split; [|split]].
  - unfold get_similar, bind, Car.findById, Car_find_limit.
    rewrite await_quiet by assumption. rewrite Hc.
    now rewrite await_quiet by assumption.
  - apply firstn_le_length.
  - intros x Hx. apply In_firstn in Hx. apply filter_In in Hx.
    destruct Hx as [Hin Hs]. apply similarTo_spec in Hs.
    rewrite Hid in Hs. tauto.
  - intros Hlen x Hin Hne Hsim.
    rewrite firstn_all2.
    + apply filter_In. split; [assumption|]. apply similarTo_spec.
      rewrite Hid. tauto.
    + rewrite length_firstn in Hlen. lia.
Qed.

Lemma similar_cars_witness :
  let c := corolla 1 ICar.reserved in
  exists l,
    get_similar 1 fleet = (reply 200 (Data l), fleet)
    /\ length l <= 5
    /\ (forall x,
          In x l ->
          In x (cars fleet) /\ ICar._id x <> 1
          /\ (ICar.vehicleSize x
              = ICar.vehicleSize c
              \/ (ICar.dailyRate c - 50
                  <= ICar.dailyRate x
                  <= ICar.dailyRate c + 50)%Z))
    /\ (length l < 5 ->
        forall x,
          In x (cars fleet) -> ICar._id x <> 1 ->
          ICar.vehicleSize x = ICar.vehicleSize c
          \/ (ICar.dailyRate c - 50
              <= ICar.dailyRate x
              <= ICar.dailyRate c + 50)%Z ->
          In x l).
Proof.
  apply (similar_cars 1 fleet (corolla 1 ICar.reserved)); reflexivity.
Defined.

(** * The middlewares *)

Lemma split_space_cons s : exists piece pieces, split_space s = piece :: pieces.
Proof.
  induction s as [|c s [p [ps IH]]]; cbn.
  - now exists EmptyString, [].
  - destruct (Ascii.eqb c " "%char).
    + now exists EmptyString, (split_space s).
    + rewrite IH. now exists (String c p), ps.
Qed.

Lemma split_space_no_space s : has_space s = false -> split_space s = [s].
Proof.
  induction s as [|c s IH]; cbn; [reflexivity|].
  destruct (Ascii.eqb c " "%char); cbn; [discriminate|].
  intros H. now rewrite (IH H).
Qed.

Lemma split_space_app a rest :
  has_space a = false ->
  split_space (a ++ String " "%char rest)%string = a :: split_space rest.
Proof.
  induction a as [|c a IH]; cbn; [reflexivity|].
  destruct (Ascii.eqb c " "%char); cbn; [discriminate|].
  intros H. now rewrite (IH H).
Qed.

(** X13. Reading the token off the header: a header made of a first word,
    one space and a token without spaces yields the token, whatever the
    first word is ([Bearer] is not asked for); a header without a space
    yields no token. *)
Theorem header_token scheme token :
  has_space scheme = false ->
  has_space token = false ->
  token_of (Some (scheme ++ String " "%char token)%string) = Some token
  /\ token_of (Some scheme) = None.
Proof.
  intros Hs Ht. unfold token_of. split.
  - rewrite split_space_app by assumption.
    now rewrite split_space_no_space by assumption.
  - now rewrite split_space_no_space by assumption.
Qed.

Lemma header_token_witness :
  token_of (Some ("Bearer" ++ String " "%char "t7")%string) = Some "t7"
  /\ token_of (Some "Bearer") = None.
Proof. apply (header_token "Bearer" "t7"); reflexivity. Defined.

Lemma backend_eta b : mkBackend (db b) (users b) = b.
Proof. now destruct b. Qed.

Lemma same_data_refl b : same_data b b.
Proof. now repeat split. Qed.

Lemma User_findById_data i b :
  same_data b (snd (User_findById i b)).
Proof.
  unfold User_findById, await_users.
  destruct (faults (db b)) as [|[m|] fs]; cbn; now repeat split.
Qed.

Lemma User_findById_found i b found b' :
  User_findById i b = (Returned found, b') ->
  found = find (byId IUser._id i) (users b).
Proof.
  unfold User_findById, await_users.
  destruct (faults (db b)) as [|[m|] fs]; cbn; congruence.
Qed.

(** X14. The admin gate: a route mounted behind [authenticate] and
    [isAdmin] runs its handler only for a token that [jwt.verify] accepts
    and whose user is stored with the role admin.  For every other
    request, whatever the store does, the answer is a 401 or a 403 and
    the users, the cars, the reservations, the statistics and the journal
    of writes are as they were. *)
Theorem admin_gate {R} verify (deny : nat -> string -> R) authorization h b :
  (forall token decoded u,
      token_of authorization = Some token ->
      verify token = Some decoded ->
      find (byId IUser._id (claim_userId decoded)) (users b) = Some u ->
      IUser.role u <> IUser.admin) ->
  (exists msg,
      fst (admin_only verify deny authorization h b) = deny 401 msg
      \/ fst (admin_only verify deny authorization h b) = deny 403 msg)
  /\ same_data b (snd (admin_only verify deny authorization h b)).
Proof.
  intros Hno. unfold admin_only, authenticate.
  destruct (token_of authorization) as [[|c t]|] eqn:Ht;
    try (split; [eexists; left; reflexivity | apply same_data_refl]).
  destruct (verify (String c t)) as [decoded|] eqn:Hv;
    [|split; [eexists; left; reflexivity | apply same_data_refl]].
  pose proof (User_findById_data (claim_userId decoded) b) as Hd.
  destruct (User_findById (claim_userId decoded) b) as [[found|e] b'] eqn:Hu;
    cbn [snd] in Hd; [|split; [eexists; left; reflexivity | exact Hd]].
  apply User_findById_found in Hu. subst found.
  destruct (find (byId IUser._id (claim_userId decoded)) (users b))
    as [u|] eqn:Hf; cbn [option_map isAdmin].
  - specialize (Hno _ _ _ eq_refl Hv Hf). cbn [IUser.v_role
      IUser.select_minus_password].
    destruct (IUser.role u); [congruence|].
    split; [eexists; right; reflexivity | exact Hd].
  - split; [eexists; right; reflexivity | exact Hd].
Qed.

Lemma admin_gate_witness :
  (exists msg,
      fst (approve_route toy_verify (Some "Bearer t7") 10 office)
      = deny_response 401 msg
      \/ fst (approve_route toy_verify (Some "Bearer t7") 10 office)
         = deny_response 403 msg)
  /\ same_data office
       (snd (approve_route toy_verify (Some "Bearer t7") 10 office)).
Proof.
  apply (admin_gate toy_verify deny_response (Some "Bearer t7")
           (on_db (patch_approve 10)) office).
  intros token decoded u Ht Hv Hu. cbn in Ht. injection Ht as <-.
  cbn in Hv. injection Hv as <-. cbn in Hu. injection Hu as <-.
  discriminate.
Defined.

(** In a quiet store, a request with a token that verifies reaches what is
    behind [authenticate] with the stored user, password left out. *)
Lemma authenticate_quiet {R} verify (deny : nat -> string -> R)
    authorization next token decoded b :
  faults (db b) = [] ->
  token_of authorization = Some token ->
  token <> EmptyString ->
  verify token = Some decoded ->
  authenticate verify deny authorization next b
  = next (option_map IUser.select_minus_password
            (find (byId IUser._id (claim_userId decoded)) (users b))) b.
Proof.
  intros Hq Ht Hne Hv. unfold authenticate. rewrite Ht.
  destruct token as [|c t]; [congruence|]. rewrite Hv.
  unfold User_findById, await_users. rewrite Hq.
  now rewrite backend_eta.
Qed.

Lemma put_role_quiet role msg id b u :
  faults (db b) = [] ->
  find (byId IUser._id id) (users b) = Some u ->
  put_role role msg id b
  = (reply 200 (MessageData msg (IUser.set_role role u)),
     mkBackend (db b)
       (updateOne IUser._id (IUser.set_role role u) (users b))).
Proof.
  intros Hq Hu. unfold put_role, User_findByIdAndUpdate_role, await_users.
  now rewrite Hq, Hu.
Qed.

Lemma find_user_after_role role (us : list IUser.t) id u :
  find (byId IUser._id id) us = Some u ->
  find (byId IUser._id id) (updateOne IUser._id (IUser.set_role role u) us)
  = Some (IUser.set_role role u).
Proof.
  intros Hu. pose proof (find_byId_key _ _ _ _ Hu) as Hid.
  rewrite <- Hid at 1.
  change (IUser._id u) with (IUser._id (IUser.set_role role u)) at 1.
  apply find_updateOne_same. cbn [IUser._id IUser.set_role].
  rewrite Hid. eapply find_byId_existsb; eassumption.
Qed.

(** X15. A change of role counts from the next request on, whatever role
    the token was signed with: once an admin has revoked the admin role of
    a user, an approval sent with a token of that user is answered 403;
    once an admin has granted it, an approval sent with a token of that
    user runs the approval.  The admin may be the user itself. *)
Theorem role_change_is_immediate verify admin_header ta da ua
    header tt dt target ut id b :
  faults (db b) = [] ->
  token_of admin_header = Some ta -> ta <> EmptyString ->
  verify ta = Some da ->
  find (byId IUser._id (claim_userId da)) (users b) = Some ua ->
  IUser.role ua = IUser.admin ->
  find (byId IUser._id target) (users b) = Some ut ->
  token_of header = Some tt -> tt <> EmptyString ->
  verify tt = Some dt ->
  claim_userId dt = target ->
  let revoked := snd (revokeAdmin_route verify admin_header target b) in
  let granted := snd (grantAdmin_route verify admin_header target b) in
  approve_route verify header id revoked
  = (respond 403 (JsonError "Access denied"), revoked)
  /\ approve_route verify header id granted
     = on_db (patch_approve id) granted.
Proof.
  intros Hq Hta Hnea Hva Hua Hra Hut Htt Hnet Hvt Htarget revoked granted.
  subst revoked granted.
  unfold revokeAdmin_route, grantAdmin_route, admin_only.
  rewrite !(authenticate_quiet verify deny_reply admin_header _ ta da b)
    by assumption.
  rewrite Hua. cbn [option_map isAdmin IUser.v_role
    IUser.select_minus_password]. rewrite Hra.
  rewrite !(put_role_quiet _ _ target b ut) by assumption. cbn [snd].
  unfold approve_route, admin_only. split.
  - rewrite (authenticate_quiet verify deny_response header _ tt dt)
      by assumption.
    cbn [users]. rewrite Htarget, (find_user_after_role _ _ _ _ Hut).
    reflexivity.
  - rewrite (authenticate_quiet verify deny_response header _ tt dt)
      by assumption.
    cbn [users]. rewrite Htarget, (find_user_after_role _ _ _ _ Hut).
    reflexivity.
Qed.

Lemma role_change_is_immediate_witness :
  let revoked := snd (revokeAdmin_route toy_verify (Some "Bearer t9") 9 office) in
  let granted := snd (grantAdmin_route toy_verify (Some "Bearer t9") 9 office) in
  approve_route toy_verify (Some "Bearer t9") 10 revoked
  = (respond 403 (JsonError "Access denied"), revoked)
  /\ approve_route toy_verify (Some "Bearer t9") 10 granted
     = on_db (patch_approve 10) granted.
Proof.
  apply (role_change_is_immediate toy_verify (Some "Bearer t9") "t9"
           (claims 9 IUser.admin) (member 9 IUser.admin)
           (Some "Bearer t9") "t9" (claims 9 IUser.admin) 9
           (member 9 IUser.admin) 10 office);
    try reflexivity; discriminate.
Defined.

(** X16. Creation asks who is calling only for a token: with any token
    that [jwt.verify] accepts, the route runs the creation for the
    [userId] of the body, whether or not that is the user of the token,
    and whether or not the user of the token is still stored. *)
Theorem create_trusts_body verify authorization token decoded
    userId carId startDate endDate totalCost b :
  faults (db b) = [] ->
  token_of authorization = Some token -> token <> EmptyString ->
  verify token = Some decoded ->
  create_route verify authorization userId carId startDate endDate totalCost b
  = on_db (post_reservation userId carId startDate endDate totalCost) b.
Proof.
  intros Hq Ht Hne Hv. unfold create_route, authenticated.
  now rewrite (authenticate_quiet verify deny_response authorization _
                 token decoded b) by assumption.
Qed.

Lemma create_trusts_body_witness :
  create_route toy_verify (Some "Bearer t7") 9 1 (jan 6) (jan 9) 150
    (mkBackend (store ICar.available IReservation.pending) [])
  = on_db (post_reservation 9 1 (jan 6) (jan 9) 150)
      (mkBackend (store ICar.available IReservation.pending) []).
Proof.
  apply (create_trusts_body toy_verify (Some "Bearer t7") "t7"
           (claims 7 IUser.admin));
    try reflexivity; discriminate.
Defined.

(** ** The pass and the approvals after it *)

Lemma swept_find_unended now w r :
  NoDup (map IReservation._id (reservations w)) ->
  In r (reservations w) -> ended now r = false ->
  find (byId IReservation._id (IReservation._id r))
    (reservations (swept now (filter (ended now) (reservations w)) w))
  = Some r.
Proof.
  intros Hnd Hin Hne.
  rewrite swept_reservations by (now apply batch_ended).
  rewrite find_map_key by (intros x; apply completing_id).
  rewrite find_byId_In by assumption. cbn [option_map]. f_equal.
  unfold completing.
  destruct (existsb (Nat.eqb (IReservation._id r))
              (map IReservation._id (filter (ended now) (reservations w))))
    eqn:Ex; [|reflexivity].
  exfalso. apply existsb_exists in Ex. destruct Ex as [i [Hi Ei]].
  apply Nat.eqb_eq in Ei. subst i. apply in_map_iff in Hi.
  destruct Hi as [y [Ey Hy]]. apply filter_In in Hy.
  destruct Hy as [Hy Hended].
  assert (y = r)
    by (apply (NoDup_key_inj IReservation._id (reservations w)); assumption).
  subst y. congruence.
Qed.

Lemma pending_not_ended now r :
  IReservation.status r = IReservation.pending -> ended now r = false.
Proof. intros H. unfold ended. rewrite H. cbn. apply andb_false_r. Qed.

(** X17. A car the pass has released can be booked again: when a
    confirmed reservation on a car has ended and no reservation on the car
    covers [now], then after the pass the approval of a pending
    reservation on that car succeeds. *)
Theorem released_car_can_be_approved now w r c id2 r2 :
  faults w = [] ->
  NoDup (map IReservation._id (reservations w)) ->
  In r (reservations w) ->
  IReservation.status r = IReservation.confirmed ->
  (IReservation.endDate r < now)%Z ->
  find (byId ICar._id (IReservation.carId r)) (cars w) = Some c ->
  filter (overlapping (IReservation.carId r) now) (reservations w) = [] ->
  find (byId IReservation._id id2) (reservations w) = Some r2 ->
  IReservation.status r2 = IReservation.pending ->
  IReservation.carId r2 = IReservation.carId r ->
  let w' := cronJob now w in
  Succeeded (fst (patch_approve id2 w'))
  /\ find (byId ICar._id (IReservation.carId r)) (cars (snd (patch_approve id2 w')))
     = Some (ICar.set_status ICar.reserved c).
Proof.
  intros Hq Hnd Hin Hs He Hc Hidle Hr2 Hs2 Hcar w'. subst w'.
  rewrite cronJob_quiet by assumption.
  set (w' := swept now (filter (ended now) (reservations w)) w).
  assert (Hq' : faults w' = []) by (unfold w'; now rewrite swept_faults).
  assert (Hid2 : IReservation._id r2 = id2)
    by (eapply find_byId_key; eassumption).
  assert (Hr2' : find (byId IReservation._id id2) (reservations w') = Some r2).
  { rewrite <- Hid2. apply swept_find_unended; try assumption.
    - apply find_some in Hr2. tauto.
    - now apply pending_not_ended. }
  assert (Hc' : find (byId ICar._id (IReservation.carId r2)) (cars w')
                = Some (ICar.set_status ICar.available c)).
  { unfold w'. rewrite Hcar, swept_cars_find by (now apply batch_ended).
    rewrite Hc.
    assert (Hex : existsb
                    (fun x => IReservation.carId x =? IReservation.carId r)
                    (filter (ended now) (reservations w)) = true).
    { apply existsb_exists. exists r. split; [|apply Nat.eqb_refl].
      apply filter_In. split; [assumption | now apply ended_true]. }
    apply idle_true in Hidle. now rewrite Hex, Hidle. }
  rewrite (approve_run id2 w' r2 (ICar.set_status ICar.available c)
             Hq' Hr2' Hc' Hs2 eq_refl).
  cbn [fst snd]. split; [reflexivity|].
  rewrite approved_cars, <- Hcar.
  assert (Hcid : ICar._id c = IReservation.carId r2)
    by (rewrite Hcar; eapply find_byId_key; eassumption).
  rewrite <- Hcid at 1.
  change (ICar._id c)
    with (ICar._id (ICar.set_status ICar.reserved
                      (ICar.set_status ICar.available c))) at 1.
  pose proof (find_updateOne_same ICar._id
                (ICar.set_status ICar.reserved
                   (ICar.set_status ICar.available c)) (cars w')) as F.
  apply F. cbn [ICar._id ICar.set_status]. rewrite Hcid.
  eapply find_byId_existsb; eassumption.
Qed.

Lemma released_car_can_be_approved_witness :
  let w := mkWorld [corolla 1 ICar.reserved]
                   [booking 10 1 IReservation.confirmed;
                    IReservation.mk 11 1 8 (jan 8) (jan 9)
                                    IReservation.pending 150]
                   [] 12 [] [] [] in
  let w' := cronJob (jan 6) w in
  Succeeded (fst (patch_approve 11 w'))
  /\ find (byId ICar._id 1) (cars (snd (patch_approve 11 w')))
     = Some (corolla 1 ICar.reserved).
Proof.
  apply (released_car_can_be_approved (jan 6)
           (mkWorld [corolla 1 ICar.reserved]
                    [booking 10 1 IReservation.confirmed;
                     IReservation.mk 11 1 8 (jan 8) (jan 9)
                                     IReservation.pending 150]
                    [] 12 [] [] [])
           (booking 10 1 IReservation.confirmed) (corolla 1 ICar.reserved)
           11 (IReservation.mk 11 1 8 (jan 8) (jan 9) IReservation.pending 150));
    try reflexivity.
  - cbn. repeat constructor; cbn; intuition discriminate.
  - now left.
Defined.

(** X18. A pending reservation that covers [now] stands in its own way:
    when a confirmed reservation on a car has ended but a pending
    reservation on the same car has [startDate <= now <= endDate], the
    pass leaves the car as it was, and, the car not being available, the
    approval of that pending reservation after the pass is refused with
    status 400 and writes nothing. *)
Theorem pending_overlap_blocks_itself now w r c id2 r2 :
  faults w = [] ->
  NoDup (map IReservation._id (reservations w)) ->
  In r (reservations w) ->
  IReservation.status r = IReservation.confirmed ->
  (IReservation.endDate r < now)%Z ->
  find (byId ICar._id (IReservation.carId r)) (cars w) = Some c ->
  ICar.status c <> ICar.available ->
  find (byId IReservation._id id2) (reservations w) = Some r2 ->
  IReservation.status r2 = IReservation.pending ->
  IReservation.carId r2 = IReservation.carId r ->
  (IReservation.startDate r2 <= now <= IReservation.endDate r2)%Z ->
  let w' := cronJob now w in
  find (byId ICar._id (IReservation.carId r)) (cars w') = Some c
  /\ patch_approve id2 w'
     = (respond 400 (JsonError "Car is not available!"), w').
Proof.
  intros Hq Hnd Hin Hs He Hc Hna Hr2 Hs2 Hcar Hcov w'. subst w'.
  rewrite cronJob_quiet by assumption.
  set (w' := swept now (filter (ended now) (reservations w)) w).
  assert (Hq' : faults w' = []) by (unfold w'; now rewrite swept_faults).
  assert (Hid2 : IReservation._id r2 = id2)
    by (eapply find_byId_key; eassumption).
  assert (Hin2 : In r2 (reservations w)) by (apply find_some in Hr2; tauto).
  assert (Hr2' : find (byId IReservation._id id2) (reservations w') = Some r2).
  { rewrite <- Hid2. apply swept_find_unended; try assumption.
    now apply pending_not_ended. }
  assert (Hbusy : idle now (IReservation.carId r) (reservations w) = false).
  { destruct (idle now (IReservation.carId r) (reservations w)) eqn:Ei;
      [|reflexivity].
    apply idle_true in Ei. exfalso.
    assert (Hov : In r2 (filter (overlapping (IReservation.carId r) now)
                           (reservations w))).
    { apply filter_In. split; [assumption|]. unfold overlapping.
      rewrite Hcar, Nat.eqb_refl. cbn [andb].
      apply andb_true_iff. split; [apply Z.leb_le | apply Z.geb_le]; lia. }
    now rewrite Ei in Hov. }
  assert (Hc' : find (byId ICar._id (IReservation.carId r)) (cars w') = Some c).
  { unfold w'. rewrite swept_cars_find by (now apply batch_ended).
    now rewrite Hbusy, andb_false_r. }
  split; [exact Hc'|].
  unfold patch_approve, handler, bind, Reservation.findById, Car.findById.
  rewrite await_quiet by assumption. rewrite Hr2', Hs2. cbn.
  rewrite await_quiet by assumption. rewrite Hcar, Hc'.
  destruct (ICar.status c); cbn; congruence.
Qed.

Lemma pending_overlap_blocks_itself_witness :
  let w' := cronJob (jan 6) fleet in
  find (byId ICar._id 2) (cars w') = Some (corolla 2 ICar.reserved)
  /\ patch_approve 21 w'
     = (respond 400 (JsonError "Car is not available!"), w').
Proof.
  apply (pending_overlap_blocks_itself (jan 6) fleet
           (booking 20 2 IReservation.confirmed) (corolla 2 ICar.reserved)
           21 (IReservation.mk 21 2 8 (jan 6) (jan 9) IReservation.pending 150));
    try reflexivity.
  - cbn. repeat constructor; cbn; intuition discriminate.
  - right. now left.
  - discriminate.
  - cbn. lia.
Defined.

(** ** The statistics of a range of dates *)

Lemma get_statistics_date_quiet a b w :
  faults w = [] ->
  get_statistics_date (Some a) (Some b) w
  = (reply 200 (Data (filter (dateBetween a b) (statistics w))), w).
Proof.
  intros Hq. unfold get_statistics_date, bind, Statistics_find.
  now rewrite await_quiet by assumption.
Qed.

(** X19. The range of [/date] has both ends in: after a creation that
    went through, the records of a range [a .. b] are the former ones,
    followed by the new record exactly when the midnight (UTC) of the day
    of [startDate] lies in [a <= . <= b]; so the range that starts and
    ends at that midnight shows the new record.  A request that lacks one
    of the two dates is answered 400 and reads nothing. *)
Theorem create_shows_in_range userId carId startDate endDate totalCost w c
    a b :
  faults w = [] ->
  find (byId ICar._id carId) (cars w) = Some c ->
  let day := castDate (toISODate startDate) in
  let s := IStatistics.mk (S (nextId w)) day totalCost IStatistics.pending
                          (nextId w) in
  let w' := snd (post_reservation userId carId startDate endDate totalCost w) in
  (exists l,
      fst (get_statistics_date (Some a) (Some b) w) = reply 200 (Data l)
      /\ fst (get_statistics_date (Some a) (Some b) w')
         = reply 200
             (Data (if (a <=? day)%Z && (day <=? b)%Z then l ++ [s] else l)))
  /\ fst (get_statistics_date (Some day) (Some day) w')
     = reply 200 (Data (filter (dateBetween day day) (statistics w) ++ [s]))
  /\ (forall w0 d,
        get_statistics_date None d w0
        = (reply 400 (ErrorJson "Start date and end date are required"), w0)
        /\ get_statistics_date d None w0
           = (reply 400 (ErrorJson "Start date and end date are required"),
              w0)).
Proof.
  intros Hq Hc day s w'. subst w'.
  destruct (create_run userId carId startDate endDate totalCost w c Hq Hc)
    as [msg ->]. cbn [snd].
  rewrite !get_statistics_date_quiet by assumption. cbn [fst].
  rewrite created_statistics, !filter_app. cbn [filter].
  fold day. fold s.
  assert (E : forall x y,
             dateBetween x y s = (x <=? day)%Z && (day <=? y)%Z)
    by reflexivity.
  rewrite !E. split; [|split].
  - eexists. split; [reflexivity|].
    destruct ((a <=? day)%Z && (day <=? b)%Z); [reflexivity|].
    now rewrite app_nil_r.
  - now rewrite Z.leb_refl.
  - intros w0 d. split; [reflexivity|]. now destruct d.
Qed.

Lemma create_shows_in_range_witness :
  let w := store ICar.available IReservation.confirmed in
  let s := IStatistics.mk 13 (jan 6) 150 IStatistics.pending 12 in
  let w' := snd (post_reservation 8 1 (jan 6 + 3600000)%Z (jan 9) 150 w) in
  fst (get_statistics_date (Some (jan 6)) (Some (jan 6)) w')
  = reply 200 (Data [s]).
Proof.
  pose proof (create_shows_in_range 8 1 (jan 6 + 3600000)%Z (jan 9) 150
                (store ICar.available IReservation.confirmed)
                (corolla 1 ICar.available) (jan 6) (jan 6)
                eq_refl eq_refl) as H.
  cbv zeta in H. destruct H as (_ & H & _). exact H.
Defined.
